(** * Per-partition consumer of pulsar-client-go: message IDs and the
      partition consumer state machine

    A shallow embedding of [pulsar/impl_message.go] and
    [pulsar/impl_partition_consumer.go].

    Conventions.
    - Go integers are [Z] with the wrap-around of each conversion written
      out ([uint64], [int64], [int32], [uint32]).  Go's [int] is taken at
      its 64-bit width (amd64, arm64); [int_range] is the range of its values.
    - A byte is a [Z] in [0, 256); a byte slice is a [list Z].
    - A nil pointer to a scalar (the optional and required scalar fields of a
      proto2 message) is [None].
    - Stateful code is written in a small state monad over the consumer and
      the collaborators it talks to. *)

From Stdlib Require Import String ZArith List Bool Lia.
Import ListNotations.
Open Scope Z_scope.

Set Implicit Arguments.

(* ================================================================== *)
(** * Machine integers *)

Definition uint64 (x : Z) : Z := x mod 2 ^ 64.
Definition uint32 (x : Z) : Z := x mod 2 ^ 32.
Definition int64 (x : Z) : Z := (x + 2 ^ 63) mod 2 ^ 64 - 2 ^ 63.
Definition int32 (x : Z) : Z := (x + 2 ^ 31) mod 2 ^ 32 - 2 ^ 31.

Definition int64_range (x : Z) : Prop := - 2 ^ 63 <= x < 2 ^ 63.
Definition int32_range (x : Z) : Prop := - 2 ^ 31 <= x < 2 ^ 31.
Definition uint64_range (x : Z) : Prop := 0 <= x < 2 ^ 64.
(** Go's [int] on the 64-bit targets. *)
Definition int_range (x : Z) : Prop := int64_range x.

(* ================================================================== *)
(** * Errors *)

Inductive ctxError := Canceled | DeadlineExceeded.

(** [pb.BaseCommand_Type], the commands the consumer meets. *)
Inductive BaseCommand_Type :=
| SUBSCRIBE | FLOW | ACK | SEEK | UNSUBSCRIBE
| REDELIVER_UNACKNOWLEDGED_MESSAGES | CLOSE_CONSUMER
| SUCCESS | ERROR | MESSAGE
| OTHER_COMMAND (n : Z).

Inductive error :=
| ErrUnexpectedEOF                        (* io.ErrUnexpectedEOF *)
| ErrRequiredNotSet (field : string)      (* proto.RequiredNotSetError *)
| ErrCantSkip (wire : Z)                  (* proto: can't skip unknown wire type *)
| ErrCollaborator (code : Z)              (* an error of the lookup service or the rpc client *)
| ErrBroker (code : Z) (msg : string)     (* fmt.Errorf("%s: %s", ...) in grabCnx *)
| ErrUnexpectedMsg (msgType : BaseCommand_Type) (requestID : Z)  (* util.NewUnexpectedErrMsg *)
| ErrInvalidPermits (permits : Z)         (* internalFlow *)
| ErrParseMessage (e : error)             (* fmt.Errorf("parse message error:%s", err) *)
| ErrQueueFull (topic : string) (capacity : Z)    (* HandlerMessage, default branch *)
| ErrReceiveQueueClosed                   (* newError(ResultConnectError, "receive queue closed") *)
| ErrContext (e : ctxError).              (* ctx.Err() *)

(* ================================================================== *)
(** * Protobuf wire format of [pb.MessageIdData] *)

Module proto.

(** Modelled from the spec: [pb.MessageIdData] is generated code of the
    repository (pkg/pb) that is not part of the sources at hand, and
    [proto.Marshal], [proto.Unmarshal] and [proto.Equal] belong to the
    protobuf runtime.  The spec asks for "the canonical protobuf encoding of
    the four fields": required uint64 ledgerId = 1, required uint64
    entryId = 2, optional int32 partition = 3 (default -1), optional int32
    batch_index = 4 (default -1), each a varint field, written in field
    order and followed by the unrecognised bytes kept from a decode. *)
Record MessageIdData := {
  LedgerId : option Z;
  EntryId : option Z;
  Partition : option Z;
  BatchIndex : option Z;
  XXX_unrecognized : list Z
}.

Definition empty : MessageIdData :=
  {| LedgerId := None; EntryId := None; Partition := None;
     BatchIndex := None; XXX_unrecognized := [] |}.

Definition GetLedgerId (m : MessageIdData) : Z :=
  match LedgerId m with Some v => v | None => 0 end.
Definition GetEntryId (m : MessageIdData) : Z :=
  match EntryId m with Some v => v | None => 0 end.
Definition GetPartition (m : MessageIdData) : Z :=
  match Partition m with Some v => v | None => -1 end.
Definition GetBatchIndex (m : MessageIdData) : Z :=
  match BatchIndex m with Some v => v | None => -1 end.

(** [proto.Int]: a Go [int] stored as int32. *)
Definition Int (v : Z) : option Z := Some (int32 v).
Definition Uint64 (v : Z) : option Z := Some v.

(** ** Varints *)

Definition maxVarintBytes : nat := 10.

(** The loop of [EncodeVarint]; [fuel] bounds the bytes left in the
    ten-byte buffer besides the final one. *)
Fixpoint EncodeVarint_loop (fuel : nat) (x : Z) : list Z :=
  match fuel with
  | O => [x mod 256]
  | S fuel' =>
      if 127 <? x
      then Z.lor 128 (Z.land x 127) :: EncodeVarint_loop fuel' (Z.shiftr x 7)
      else [x mod 256]
  end.

Definition EncodeVarint (x : Z) : list Z :=
  EncodeVarint_loop (pred maxVarintBytes) x.

(** The loop of [DecodeVarint]: at most ten bytes, seven bits each, the
    bits shifted beyond bit 63 are lost.  The result carries the rest of the
    buffer in place of the number of bytes read; [None] is the Go result
    [(0, 0)]. *)
Fixpoint DecodeVarint_loop (fuel : nat) (shift : Z) (x : Z) (buf : list Z)
  : option (Z * list Z) :=
  match fuel with
  | O => None
  | S fuel' =>
      match buf with
      | [] => None
      | b :: rest =>
          let x' := Z.lor x (uint64 (Z.shiftl (Z.land b 127) shift)) in
          if Z.land b 128 =? 0 then Some (x', rest)
          else DecodeVarint_loop fuel' (shift + 7) x' rest
      end
  end.

Definition DecodeVarint (buf : list Z) : option (Z * list Z) :=
  DecodeVarint_loop maxVarintBytes 0 0 buf.

(** ** Wire types *)

Definition WireVarint : Z := 0.
Definition WireFixed64 : Z := 1.
Definition WireBytes : Z := 2.
Definition WireStartGroup : Z := 3.
Definition WireEndGroup : Z := 4.
Definition WireFixed32 : Z := 5.

Definition drop (n : Z) (b : list Z) : option (list Z) :=
  if Z.of_nat (length b) <? n then None else Some (skipn (Z.to_nat n) b).

(** [findEndGroup]: the bytes after the end-group tag that closes the group
    opened [depth] levels up.  [None] when the buffer ends first or is
    malformed. *)
Fixpoint findEndGroup (fuel : nat) (depth : nat) (b : list Z) : option (list Z) :=
  match fuel with
  | O => None
  | S fuel' =>
      match DecodeVarint b with
      | None => None
      | Some (x, b1) =>
          let w := Z.land x 7 in
          if w =? WireVarint then
            match DecodeVarint b1 with
            | None => None
            | Some (_, b2) => findEndGroup fuel' depth b2
            end
          else if w =? WireFixed32 then
            match drop 4 b1 with
            | None => None
            | Some b2 => findEndGroup fuel' depth b2
            end
          else if w =? WireFixed64 then
            match drop 8 b1 with
            | None => None
            | Some b2 => findEndGroup fuel' depth b2
            end
          else if w =? WireBytes then
            match DecodeVarint b1 with
            | None => None
            | Some (m, b2) =>
                match drop m b2 with
                | None => None
                | Some b3 => findEndGroup fuel' depth b3
                end
            end
          else if w =? WireStartGroup then findEndGroup fuel' (S depth) b1
          else if w =? WireEndGroup then
            match depth with
            | O => None
            | S O => Some b1
            | S d => findEndGroup fuel' d b1
            end
          else None
      end
  end.

(** [skipField]: the buffer after one field value of wire type [wire]. *)
Definition skipField (b : list Z) (wire : Z) : error + list Z :=
  if wire =? WireVarint then
    match DecodeVarint b with
    | None => inl ErrUnexpectedEOF
    | Some (_, rest) => inr rest
    end
  else if wire =? WireBytes then
    match DecodeVarint b with
    | None => inl ErrUnexpectedEOF
    | Some (m, rest) =>
        match drop m rest with
        | None => inl ErrUnexpectedEOF
        | Some rest' => inr rest'
        end
    end
  else if wire =? WireFixed32 then
    match drop 4 b with None => inl ErrUnexpectedEOF | Some rest => inr rest end
  else if wire =? WireFixed64 then
    match drop 8 b with None => inl ErrUnexpectedEOF | Some rest => inr rest end
  else if wire =? WireStartGroup then
    match findEndGroup (S (length b)) 1 b with
    | None => inl (ErrCantSkip wire)
    | Some rest => inr rest
    end
  else inl (ErrCantSkip wire).

(** ** Marshal *)

Definition appendVarintField (tag : Z) (v : option Z) : list Z :=
  match v with
  | None => []
  | Some x =>
      EncodeVarint (Z.lor (Z.shiftl tag 3) WireVarint) ++ EncodeVarint (uint64 x)
  end.

Definition requiredNotSet (m : MessageIdData) : option error :=
  match LedgerId m, EntryId m with
  | None, _ => Some (ErrRequiredNotSet "ledgerId")
  | _, None => Some (ErrRequiredNotSet "entryId")
  | _, _ => None
  end.

Definition Marshal (m : MessageIdData) : list Z * option error :=
  (appendVarintField 1 (LedgerId m) ++ appendVarintField 2 (EntryId m)
   ++ appendVarintField 3 (Partition m) ++ appendVarintField 4 (BatchIndex m)
   ++ XXX_unrecognized m,
   requiredNotSet m).

(** ** Unmarshal *)

Definition setField (tag : Z) (v : Z) (m : MessageIdData) : MessageIdData :=
  if tag =? 1 then
    {| LedgerId := Some v; EntryId := EntryId m; Partition := Partition m;
       BatchIndex := BatchIndex m; XXX_unrecognized := XXX_unrecognized m |}
  else if tag =? 2 then
    {| LedgerId := LedgerId m; EntryId := Some v; Partition := Partition m;
       BatchIndex := BatchIndex m; XXX_unrecognized := XXX_unrecognized m |}
  else if tag =? 3 then
    {| LedgerId := LedgerId m; EntryId := EntryId m; Partition := Some (int32 v);
       BatchIndex := BatchIndex m; XXX_unrecognized := XXX_unrecognized m |}
  else
    {| LedgerId := LedgerId m; EntryId := EntryId m; Partition := Partition m;
       BatchIndex := Some (int32 v); XXX_unrecognized := XXX_unrecognized m |}.

Definition keepUnrecognized (bs : list Z) (m : MessageIdData) : MessageIdData :=
  {| LedgerId := LedgerId m; EntryId := EntryId m; Partition := Partition m;
     BatchIndex := BatchIndex m; XXX_unrecognized := XXX_unrecognized m ++ bs |}.

Definition knownTag (tag : Z) : bool := (1 <=? tag) && (tag <=? 4).

(** The decode loop of the table-driven unmarshaller.  The message decoded
    so far is returned together with the error, as the Go code leaves it in
    the caller's struct.  The outer [None] is fuel exhaustion, which
    [Unmarshal_loop_fuel] excludes. *)
Fixpoint Unmarshal_loop (fuel : nat) (m : MessageIdData) (b : list Z)
  : option (MessageIdData * option error) :=
  match fuel with
  | O => None
  | S fuel' =>
      match b with
      | [] => Some (m, requiredNotSet m)
      | _ :: _ =>
          match DecodeVarint b with
          | None => Some (m, Some ErrUnexpectedEOF)
          | Some (x, b1) =>
              let tag := Z.shiftr x 3 in
              let wire := Z.land x 7 in
              if knownTag tag && (wire =? WireVarint) then
                match DecodeVarint b1 with
                | None => Some (m, Some ErrUnexpectedEOF)
                | Some (v, b2) => Unmarshal_loop fuel' (setField tag v m) b2
                end
              else
                match skipField b1 wire with
                | inl e => Some (m, Some e)
                | inr b2 =>
                    let skipped := firstn (length b1 - length b2) b1 in
                    Unmarshal_loop fuel'
                      (keepUnrecognized
                         (EncodeVarint (Z.lor (Z.shiftl tag 3) wire) ++ skipped) m)
                      b2
                end
          end
      end
  end.

(** [proto.Unmarshal(buf, pb)]: [pb] is reset, then filled. *)
Definition Unmarshal (buf : list Z) : MessageIdData * option error :=
  match Unmarshal_loop (S (length buf)) empty buf with
  | Some r => r
  | None => (empty, Some ErrUnexpectedEOF)
  end.

(** ** Equal *)

Definition eqb_optZ (a b : option Z) : bool :=
  match a, b with
  | Some x, Some y => x =? y
  | None, None => true
  | _, _ => false
  end.

Fixpoint eqb_bytes (a b : list Z) : bool :=
  match a, b with
  | [], [] => true
  | x :: a', y :: b' => (x =? y) && eqb_bytes a' b'
  | _, _ => false
  end.

(** [proto.Equal] on two non-nil messages: field by field, set-ness
    included, then the unrecognised bytes. *)
Definition Equal (a b : MessageIdData) : bool :=
  eqb_optZ (LedgerId a) (LedgerId b) && eqb_optZ (EntryId a) (EntryId b)
  && eqb_optZ (Partition a) (Partition b)
  && eqb_optZ (BatchIndex a) (BatchIndex b)
  && eqb_bytes (XXX_unrecognized a) (XXX_unrecognized b).

End proto.

(* ================================================================== *)
(** * impl_message.go *)

Module impl_message.

Record messageId := {
  ledgerID : Z;
  entryID : Z;
  batchIdx : Z;
  partitionIdx : Z
}.

Definition newMessageId (ledgerID entryID batchIdx partitionIdx : Z) : messageId :=
  {| ledgerID := ledgerID; entryID := entryID;
     batchIdx := batchIdx; partitionIdx := partitionIdx |}.

Definition messageId_Serialize (id : messageId) : list Z :=
  let msgId :=
    {| proto.LedgerId := proto.Uint64 (uint64 (ledgerID id));
       proto.EntryId := proto.Uint64 (uint64 (entryID id));
       proto.BatchIndex := proto.Int (batchIdx id);
       proto.Partition := proto.Int (partitionIdx id);
       proto.XXX_unrecognized := [] |} in
  fst (proto.Marshal msgId).

Definition deserializeMessageId (data : list Z) : error + messageId :=
  let (msgId, err) := proto.Unmarshal data in
  match err with
  | Some e => inl e
  | None =>
      inr (newMessageId
             (int64 (proto.GetLedgerId msgId))
             (int64 (proto.GetEntryId msgId))
             (proto.GetBatchIndex msgId)
             (proto.GetPartition msgId))
  end.

Definition timeFromUnixTimestampMillis (timestamp : Z) : Z * Z :=
  let ts := int64 (int64 timestamp * 1000000) in
  let seconds := Z.quot ts 1000000000 in
  let nanos := int64 (ts - int64 (seconds * 1000000000)) in
  (seconds, nanos).

(** [t.UnixNano()] of the time built by [time.Unix(sec, nsec)]. *)
Definition UnixNano (t : Z * Z) : Z := int64 (fst t * 1000000000 + snd t).

Definition timeToUnixTimestampMillis (t : Z * Z) : Z :=
  let nanos := UnixNano t in
  let millis := Z.quot nanos 1000000 in
  uint64 millis.

Definition earliestMessageID : messageId := newMessageId (-1) (-1) (-1) (-1).

Definition maxLong : Z := 0x7fffffffffffffff.

Definition latestMessageID : messageId := newMessageId maxLong maxLong (-1) (-1).

(** Well-formed values of the Go struct, and of the data model's MessageID
    (whose batch and partition indices are 32-bit). *)
Definition messageId_wf (id : messageId) : Prop :=
  int64_range (ledgerID id) /\ int64_range (entryID id)
  /\ int_range (batchIdx id) /\ int_range (partitionIdx id).

Definition MessageID_model (id : messageId) : Prop :=
  int64_range (ledgerID id) /\ int64_range (entryID id)
  /\ int32_range (batchIdx id) /\ int32_range (partitionIdx id).

(** The interface [MessageID] has the one method [Serialize].  Its
    implementation in this package is [*messageId]; any other implementation
    is known to the consumer only through the bytes it returns. *)
Inductive MessageID :=
| IdImpl (id : messageId)
| IdOther (serialized : list Z).

Definition Serialize (id : MessageID) : list Z :=
  match id with
  | IdImpl id => messageId_Serialize id
  | IdOther data => data
  end.

Record message := {
  publishTime : Z * Z;
  eventTime : Z * Z;
  key : string;
  payLoad : list Z;
  msgID : MessageID;
  properties : list (string * string);
  topic : string
}.

Definition ID (msg : message) : MessageID := msgID msg.

End impl_message.

(* ================================================================== *)
(** * The unacked-message tracker *)

Module tracker.

(** Modelled from the spec: [UnackedMessageTracker] is defined in a file of
    the repository that is not part of the sources at hand.  Section 4.2:
    [add] records the id in the "current" bucket and leaves an id already
    present in either bucket in place, [remove] deletes the id from both
    buckets, [clear] empties both, [start] begins the ticks and [stop]
    ceases them. *)
Record UnackedMessageTracker := {
  currentSet : list proto.MessageIdData;
  oldSet : list proto.MessageIdData;
  timeout : Z;
  ticking : bool
}.

Definition NewUnackedMessageTracker : UnackedMessageTracker :=
  {| currentSet := []; oldSet := []; timeout := 0; ticking := false |}.

Definition contains (id : proto.MessageIdData) (l : list proto.MessageIdData) : bool :=
  existsb (proto.Equal id) l.

Definition without (id : proto.MessageIdData) (l : list proto.MessageIdData)
  : list proto.MessageIdData :=
  filter (fun x => negb (proto.Equal id x)) l.

Definition Add (id : proto.MessageIdData) (t : UnackedMessageTracker) : UnackedMessageTracker :=
  if contains id (currentSet t) || contains id (oldSet t) then t
  else {| currentSet := id :: currentSet t; oldSet := oldSet t;
          timeout := timeout t; ticking := ticking t |}.

Definition Remove (id : proto.MessageIdData) (t : UnackedMessageTracker) : UnackedMessageTracker :=
  {| currentSet := without id (currentSet t); oldSet := without id (oldSet t);
     timeout := timeout t; ticking := ticking t |}.

Definition clear (t : UnackedMessageTracker) : UnackedMessageTracker :=
  {| currentSet := []; oldSet := []; timeout := timeout t; ticking := ticking t |}.

Definition Start (ackTimeout : Z) (t : UnackedMessageTracker) : UnackedMessageTracker :=
  {| currentSet := currentSet t; oldSet := oldSet t;
     timeout := ackTimeout; ticking := true |}.

Definition Stop (t : UnackedMessageTracker) : UnackedMessageTracker :=
  {| currentSet := currentSet t; oldSet := oldSet t;
     timeout := timeout t; ticking := false |}.

Definition tracked (id : proto.MessageIdData) (t : UnackedMessageTracker) : bool :=
  contains id (currentSet t) || contains id (oldSet t).

End tracker.

(* ================================================================== *)
(** * impl_partition_consumer.go: data *)

Module consumer.

Import impl_message.

Definition maxRedeliverUnacknowledged : Z := 1000.

Inductive consumerState :=
| consumerInit | consumerReady | consumerClosing | consumerClosed.

Definition isReady (s : consumerState) : bool :=
  match s with consumerReady => true | _ => false end.

Inductive SubscriptionType := Exclusive | Shared | Failover | KeyShared.
Inductive InitialPosition := Latest | Earliest.

Inductive CommandSubscribe_SubType :=
| CommandSubscribe_Exclusive | CommandSubscribe_Shared
| CommandSubscribe_Failover | CommandSubscribe_Key_Shared.
Inductive CommandSubscribe_InitialPosition :=
| CommandSubscribe_Latest | CommandSubscribe_Earliest.
Inductive CommandAck_AckType := CommandAck_Individual | CommandAck_Cumulative.

(** An [internal.Connection] is known by its identity. *)
Definition Connection := Z.

(** The commands the consumer sends, with the fields it fills in. *)
Inductive Command :=
| CommandSubscribe (RequestId : Z) (Topic : string)
    (SubType : CommandSubscribe_SubType) (Subscription : string)
    (ConsumerId : Z) (ConsumerName : string)
    (InitialPosition : CommandSubscribe_InitialPosition)
| CommandUnsubscribe (RequestId : Z) (ConsumerId : Z)
| CommandFlow (ConsumerId : Z) (MessagePermits : Z)
| CommandAck (ConsumerId : Z) (MessageId : list proto.MessageIdData)
    (AckType : CommandAck_AckType)
| CommandSeek (ConsumerId : Z) (RequestId : Z) (MessageId : proto.MessageIdData)
| CommandRedeliverUnacknowledgedMessages (ConsumerId : Z)
    (MessageIds : list (option proto.MessageIdData))
| CommandCloseConsumer (ConsumerId : Z) (RequestId : Z).

(** The inbound [pb.CommandMessage]; its message id is a pointer. *)
Record CommandMessage := {
  msgConsumerId : Z;
  MessageId : option proto.MessageIdData
}.

Definition GetMessageId (response : CommandMessage) : option proto.MessageIdData :=
  MessageId response.

(** Getters on a possibly nil [*pb.MessageIdData]. *)
Definition GetLedgerId (m : option proto.MessageIdData) : Z :=
  match m with Some m => proto.GetLedgerId m | None => 0 end.
Definition GetEntryId (m : option proto.MessageIdData) : Z :=
  match m with Some m => proto.GetEntryId m | None => 0 end.
Definition GetBatchIndex (m : option proto.MessageIdData) : Z :=
  match m with Some m => proto.GetBatchIndex m | None => -1 end.

(** [proto.Equal] on two pointers: two nil pointers are equal, a nil and a
    non-nil one are not. *)
Definition Equal (a b : option proto.MessageIdData) : bool :=
  match a, b with
  | Some x, Some y => proto.Equal x y
  | None, None => true
  | _, _ => false
  end.

Record MessageMetadata := {
  PublishTime : Z;
  EventTime : Z;
  PartitionKey : string;
  Properties : list (string * string)
}.

(** A buffered Go channel: the queued values, oldest first, the capacity
    and whether it was closed.  A send can proceed when the buffer has room;
    receivers parked on the channel are not part of the model. *)
Record chan (A : Type) := {
  buf : list A;
  capacity : Z;
  closed : bool
}.

Definition make (A : Type) (n : Z) : chan A :=
  {| buf := []; capacity := n; closed := false |}.

Record ConsumerMessage := {
  Message : message;
  Consumer : Z   (* the consumer the message came through, by its id *)
}.

Record ConsumerOptions := {
  SubscriptionName : string;
  Name : string;
  Type_ : SubscriptionType;
  SubscriptionInitPos : InitialPosition;
  ReceiverQueueSize : Z;
  AckTimeout : Z;
  MessageChannel : option (chan ConsumerMessage)
}.

Definition cap (ch : option (chan ConsumerMessage)) : Z :=
  match ch with Some c => capacity c | None => 0 end.

Record LookupResult := { LogicalAddr : string; PhysicalAddr : string }.

Record BaseCommand := {
  GetType : BaseCommand_Type;
  GetError : Z * string;
  ConsumerStatsResponse : option (option string)
}.

Record RpcResult := { Response : BaseCommand; Cnx : Connection }.

(** What the collaborators answer.  The lookup service is asked with the
    number of lookups made before; the rpc client with the request id and
    the command; [internal.ParseMessage] and [internal.ConvertToStringMap]
    are functions of their argument. *)
Record collaborators := {
  Lookup : nat -> string -> error + LookupResult;
  Request : string -> string -> Z -> BaseCommand_Type -> Command -> error + RpcResult;
  RequestOnCnx : option Connection -> Z -> BaseCommand_Type -> Command -> error + BaseCommand;
  RequestOnCnxNoWait : option Connection -> Z -> BaseCommand_Type -> Command -> option error;
  ParseMessage : list Z -> error + (MessageMetadata * list Z);
  ConvertToStringMap : list (string * string) -> list (string * string)
}.

(** ** Event records.  A [sync.WaitGroup] is its counter. *)

Module handleAck.
Record t := { msgID : MessageID; waitGroup : nat; err : option error }.
End handleAck.

Module handleAckCumulative.
Record t := { msgID : MessageID; err : option error }.
End handleAckCumulative.

Module handleUnsubscribe.
Record t := { waitGroup : nat; err : option error }.
End handleUnsubscribe.

Module handleSeek.
Record t := { msgID : MessageID; err : option error }.
End handleSeek.

Module handleRedeliver.
Record t := { waitGroup : nat; err : option error }.
End handleRedeliver.

Module handlerClose.
Record t := { waitGroup : nat; err : option error }.
End handlerClose.

Inductive event :=
| EvClose (v : handlerClose.t)
| EvSeek (v : handleSeek.t)
| EvUnsubscribe (v : handleUnsubscribe.t)
| EvAckCumulative (v : handleAckCumulative.t)
| EvAck (v : handleAck.t)
| EvRedeliver (v : handleRedeliver.t)
| EvConnectionClosed.

Definition eventsChanCapacity : nat := 10.

Record partitionConsumer := {
  state : consumerState;
  client : collaborators;
  topic : string;
  cnx : option Connection;
  options : ConsumerOptions;
  consumerName : option string;
  consumerID : Z;
  overflow : list (option proto.MessageIdData);
  unAckTracker : option tracker.UnackedMessageTracker;
  eventsChan : list event;
  partitionIdx : Z
}.

(** One request handed to the rpc client. *)
Inductive rpcMethod :=
| ViaRequest (logicalAddr physicalAddr : string)
| ViaRequestOnCnx (c : option Connection)
| ViaRequestOnCnxNoWait (c : option Connection).

Record rpcCall := {
  method : rpcMethod;
  requestID : Z;
  cmdType : BaseCommand_Type;
  cmd : Command
}.

(** The rpc client and the connections as the consumer moves them: the id
    counters, the lookups made, the requests issued (oldest first) and the
    consume handlers registered on each connection. *)
Record rpcState := {
  nextRequestId : Z;
  nextConsumerId : Z;
  lookups : nat;
  wire : list rpcCall;
  consumeHandlers : list (Connection * Z)
}.

(** The consumer, the package-level variables [subType] and [position],
    the rpc side, and whether the goroutine of [runEventsLoop] is alive. *)
Record system := {
  self : partitionConsumer;
  subType : CommandSubscribe_SubType;
  position : CommandSubscribe_InitialPosition;
  rpc : rpcState;
  loopRunning : bool
}.

(** ** Field updates *)

Definition set_state (v : consumerState) (pc : partitionConsumer) :=
  {| state := v; client := client pc; topic := topic pc; cnx := cnx pc;
     options := options pc; consumerName := consumerName pc;
     consumerID := consumerID pc; overflow := overflow pc;
     unAckTracker := unAckTracker pc; eventsChan := eventsChan pc;
     partitionIdx := partitionIdx pc |}.

Definition set_cnx (v : option Connection) (pc : partitionConsumer) :=
  {| state := state pc; client := client pc; topic := topic pc; cnx := v;
     options := options pc; consumerName := consumerName pc;
     consumerID := consumerID pc; overflow := overflow pc;
     unAckTracker := unAckTracker pc; eventsChan := eventsChan pc;
     partitionIdx := partitionIdx pc |}.

Definition set_options (v : ConsumerOptions) (pc : partitionConsumer) :=
  {| state := state pc; client := client pc; topic := topic pc; cnx := cnx pc;
     options := v; consumerName := consumerName pc;
     consumerID := consumerID pc; overflow := overflow pc;
     unAckTracker := unAckTracker pc; eventsChan := eventsChan pc;
     partitionIdx := partitionIdx pc |}.

Definition set_consumerName (v : option string) (pc : partitionConsumer) :=
  {| state := state pc; client := client pc; topic := topic pc; cnx := cnx pc;
     options := options pc; consumerName := v;
     consumerID := consumerID pc; overflow := overflow pc;
     unAckTracker := unAckTracker pc; eventsChan := eventsChan pc;
     partitionIdx := partitionIdx pc |}.

Definition set_overflow (v : list (option proto.MessageIdData)) (pc : partitionConsumer) :=
  {| state := state pc; client := client pc; topic := topic pc; cnx := cnx pc;
     options := options pc; consumerName := consumerName pc;
     consumerID := consumerID pc; overflow := v;
     unAckTracker := unAckTracker pc; eventsChan := eventsChan pc;
     partitionIdx := partitionIdx pc |}.

Definition set_unAckTracker (v : option tracker.UnackedMessageTracker)
  (pc : partitionConsumer) :=
  {| state := state pc; client := client pc; topic := topic pc; cnx := cnx pc;
     options := options pc; consumerName := consumerName pc;
     consumerID := consumerID pc; overflow := overflow pc;
     unAckTracker := v; eventsChan := eventsChan pc;
     partitionIdx := partitionIdx pc |}.

Definition set_eventsChan (v : list event) (pc : partitionConsumer) :=
  {| state := state pc; client := client pc; topic := topic pc; cnx := cnx pc;
     options := options pc; consumerName := consumerName pc;
     consumerID := consumerID pc; overflow := overflow pc;
     unAckTracker := unAckTracker pc; eventsChan := v;
     partitionIdx := partitionIdx pc |}.

Definition set_MessageChannel (v : option (chan ConsumerMessage)) (o : ConsumerOptions) :=
  {| SubscriptionName := SubscriptionName o; Name := Name o; Type_ := Type_ o;
     SubscriptionInitPos := SubscriptionInitPos o;
     ReceiverQueueSize := ReceiverQueueSize o; AckTimeout := AckTimeout o;
     MessageChannel := v |}.

Definition set_ReceiverQueueSize (v : Z) (o : ConsumerOptions) :=
  {| SubscriptionName := SubscriptionName o; Name := Name o; Type_ := Type_ o;
     SubscriptionInitPos := SubscriptionInitPos o;
     ReceiverQueueSize := v; AckTimeout := AckTimeout o;
     MessageChannel := MessageChannel o |}.

Definition set_AckTimeout (v : Z) (o : ConsumerOptions) :=
  {| SubscriptionName := SubscriptionName o; Name := Name o; Type_ := Type_ o;
     SubscriptionInitPos := SubscriptionInitPos o;
     ReceiverQueueSize := ReceiverQueueSize o; AckTimeout := v;
     MessageChannel := MessageChannel o |}.

Definition with_self (f : partitionConsumer -> partitionConsumer) (s : system) :=
  {| self := f (self s); subType := subType s; position := position s;
     rpc := rpc s; loopRunning := loopRunning s |}.

Definition with_rpc (f : rpcState -> rpcState) (s : system) :=
  {| self := self s; subType := subType s; position := position s;
     rpc := f (rpc s); loopRunning := loopRunning s |}.

Definition set_loopRunning (v : bool) (s : system) :=
  {| self := self s; subType := subType s; position := position s;
     rpc := rpc s; loopRunning := v |}.

Definition set_globals (t : CommandSubscribe_SubType)
  (p : CommandSubscribe_InitialPosition) (s : system) :=
  {| self := self s; subType := t; position := p;
     rpc := rpc s; loopRunning := loopRunning s |}.

(** ** The state monad of the methods *)

Definition M (A : Type) : Type := system -> A * system.

Definition ret (A : Type) (a : A) : M A := fun s => (a, s).

Definition bind (A B : Type) (m : M A) (k : A -> M B) : M B :=
  fun s => let (a, s') := m s in k a s'.

Notation "x <- c1 ;; c2" := (bind c1 (fun x => c2))
  (at level 61, c1 at next level, right associativity).
Notation "c1 ;;; c2" := (bind c1 (fun _ => c2))
  (at level 61, right associativity).

Definition gets (A : Type) (f : partitionConsumer -> A) : M A :=
  fun s => (f (self s), s).

Definition update (f : partitionConsumer -> partitionConsumer) : M unit :=
  fun s => (tt, with_self f s).

Definition when (b : bool) (m : M unit) : M unit :=
  if b then m else ret tt.

(** ** The collaborators' methods *)

Definition send (c : rpcCall) (r : rpcState) : rpcState :=
  {| nextRequestId := nextRequestId r; nextConsumerId := nextConsumerId r;
     lookups := lookups r; wire := wire r ++ [c];
     consumeHandlers := consumeHandlers r |}.

Definition NewRequestId : M Z :=
  fun s =>
    (nextRequestId (rpc s),
     with_rpc (fun r =>
       {| nextRequestId := uint64 (nextRequestId r + 1);
          nextConsumerId := nextConsumerId r; lookups := lookups r;
          wire := wire r; consumeHandlers := consumeHandlers r |}) s).

Definition doLookup (topic : string) : M (error + LookupResult) :=
  fun s =>
    (Lookup (client (self s)) (lookups (rpc s)) topic,
     with_rpc (fun r =>
       {| nextRequestId := nextRequestId r; nextConsumerId := nextConsumerId r;
          lookups := S (lookups r); wire := wire r;
          consumeHandlers := consumeHandlers r |}) s).

Definition doRequest (logical physical : string) (requestID : Z)
  (t : BaseCommand_Type) (c : Command) : M (error + RpcResult) :=
  fun s =>
    (Request (client (self s)) logical physical requestID t c,
     with_rpc (send {| method := ViaRequest logical physical;
                       requestID := requestID; cmdType := t; cmd := c |}) s).

Definition doRequestOnCnx (requestID : Z) (t : BaseCommand_Type) (c : Command)
  : M (error + BaseCommand) :=
  fun s =>
    (RequestOnCnx (client (self s)) (cnx (self s)) requestID t c,
     with_rpc (send {| method := ViaRequestOnCnx (cnx (self s));
                       requestID := requestID; cmdType := t; cmd := c |}) s).

Definition doRequestOnCnxNoWait (requestID : Z) (t : BaseCommand_Type) (c : Command)
  : M (option error) :=
  fun s =>
    (RequestOnCnxNoWait (client (self s)) (cnx (self s)) requestID t c,
     with_rpc (send {| method := ViaRequestOnCnxNoWait (cnx (self s));
                       requestID := requestID; cmdType := t; cmd := c |}) s).

Definition set_consumeHandlers (v : list (Connection * Z)) (r : rpcState) :=
  {| nextRequestId := nextRequestId r; nextConsumerId := nextConsumerId r;
     lookups := lookups r; wire := wire r; consumeHandlers := v |}.

Definition sameHandler (a b : Connection * Z) : bool :=
  (fst a =? fst b) && (snd a =? snd b).

(** [pc.cnx.AddConsumeHandler(id, pc)] and [pc.cnx.DeleteConsumeHandler(id)];
    the connection is set from the first subscribe on. *)
Definition AddConsumeHandler (id : Z) : M unit :=
  fun s =>
    match cnx (self s) with
    | Some c =>
        (tt, with_rpc (fun r =>
           set_consumeHandlers
             ((c, id) :: filter (fun h => negb (sameHandler (c, id) h))
                           (consumeHandlers r)) r) s)
    | None => (tt, s)
    end.

Definition DeleteConsumeHandler (id : Z) : M unit :=
  fun s =>
    match cnx (self s) with
    | Some c =>
        (tt, with_rpc (fun r =>
           set_consumeHandlers
             (filter (fun h => negb (sameHandler (c, id) h)) (consumeHandlers r)) r) s)
    | None => (tt, s)
    end.

(** Calls on the tracker, made only when [pc.unAckTracker != nil]. *)
Definition onTracker (f : tracker.UnackedMessageTracker -> tracker.UnackedMessageTracker)
  : M unit :=
  update (fun pc =>
    match unAckTracker pc with
    | Some t => set_unAckTracker (Some (f t)) pc
    | None => pc
    end).

(* ================================================================== *)
(** * impl_partition_consumer.go: methods *)

Definition setDefault (options : ConsumerOptions) : ConsumerOptions :=
  let options :=
    if ReceiverQueueSize options <=? 0
    then set_ReceiverQueueSize 1000 options else options in
  if AckTimeout options =? 0
  then set_AckTimeout (30 * 1000000000) options else options.

Definition internalFlow (permits : Z) : M (option error) :=
  if permits <=? 0 then ret (Some (ErrInvalidPermits permits))
  else
    requestID <- NewRequestId ;;
    id <- gets consumerID ;;
    doRequestOnCnxNoWait requestID FLOW (CommandFlow id permits).

Definition grabCnx : M (option error) :=
  tp <- gets topic ;;
  lr <- doLookup tp ;;
  match lr with
  | inl err => ret (Some err)
  | inr lr =>
      requestID <- NewRequestId ;;
      pc <- gets (fun pc => pc) ;;
      res <- (fun s =>
                doRequest (LogicalAddr lr) (PhysicalAddr lr) requestID SUBSCRIBE
                  (CommandSubscribe requestID (topic pc) (subType s)
                     (SubscriptionName (options pc)) (consumerID pc)
                     (Name (options pc)) (position s)) s) ;;
      match res with
      | inl err => ret (Some err)
      | inr res =>
          match ConsumerStatsResponse (Response res) with
          | Some stats => update (set_consumerName stats)
          | None => ret tt
          end ;;;
          update (set_cnx (Some (Cnx res))) ;;;
          let msgType := GetType (Response res) in
          match msgType with
          | SUCCESS =>
              AddConsumeHandler (consumerID pc) ;;;
              internalFlow (uint32 (ReceiverQueueSize (options pc)))
          | ERROR =>
              let errMsg := GetError (Response res) in
              ret (Some (ErrBroker (fst errMsg) (snd errMsg)))
          | _ => ret (Some (ErrUnexpectedMsg msgType requestID))
          end
      end
  end.

Definition subTypeOf (t : SubscriptionType) : CommandSubscribe_SubType :=
  match t with
  | Exclusive => CommandSubscribe_Exclusive
  | Failover => CommandSubscribe_Failover
  | Shared => CommandSubscribe_Shared
  | KeyShared => CommandSubscribe_Key_Shared
  end.

Definition positionOf (p : InitialPosition) : CommandSubscribe_InitialPosition :=
  match p with
  | Latest => CommandSubscribe_Latest
  | Earliest => CommandSubscribe_Earliest
  end.

Definition NewConsumerId (r : rpcState) : Z * rpcState :=
  (nextConsumerId r,
   {| nextRequestId := nextRequestId r;
      nextConsumerId := uint64 (nextConsumerId r + 1);
      lookups := lookups r; wire := wire r;
      consumeHandlers := consumeHandlers r |}).

(** The constructor.  On an error of [grabCnx] the Go code returns a nil
    consumer; the system is returned all the same, to show what was sent. *)
Definition newPartitionConsumer (cl : collaborators) (r : rpcState)
  (tp : string) (opts : ConsumerOptions) (partitionId : Z)
  : option error * system :=
  let (id, r) := NewConsumerId r in
  let opts := setDefault opts in
  let opts :=
    match MessageChannel opts with
    | None => set_MessageChannel (Some (make _ (ReceiverQueueSize opts))) opts
    | Some _ => opts
    end in
  let name := if String.eqb (Name opts) "" then None else Some (Name opts) in
  let trk :=
    match Type_ opts with
    | Shared | KeyShared =>
        if AckTimeout opts =? 0 then None
        else Some (tracker.Start (AckTimeout opts) tracker.NewUnackedMessageTracker)
    | _ => None
    end in
  let c :=
    {| state := consumerInit; client := cl; topic := tp; cnx := None;
       options := opts; consumerName := name; consumerID := id;
       overflow := []; unAckTracker := trk; eventsChan := [];
       partitionIdx := partitionId |} in
  let s :=
    {| self := c; subType := subTypeOf (Type_ opts);
       position := positionOf (SubscriptionInitPos opts);
       rpc := r; loopRunning := false |} in
  let (err, s) := grabCnx s in
  match err with
  | Some e => (Some e, s)
  | None => (None, set_loopRunning true (with_self (set_state consumerReady) s))
  end.

Definition Topic : M string := gets topic.

Definition Subscription : M string := gets (fun pc => SubscriptionName (options pc)).

(** ** Internal handlers, run by the events loop *)

Definition internalUnsubscribe (unsub : handleUnsubscribe.t) : M handleUnsubscribe.t :=
  requestID <- NewRequestId ;;
  id <- gets consumerID ;;
  res <- doRequestOnCnx requestID UNSUBSCRIBE (CommandUnsubscribe requestID id) ;;
  let unsub :=
    match res with
    | inl err =>
        {| handleUnsubscribe.waitGroup := handleUnsubscribe.waitGroup unsub;
           handleUnsubscribe.err := Some err |}
    | inr _ => unsub
    end in
  DeleteConsumeHandler id ;;;
  onTracker tracker.Stop ;;;
  ret {| handleUnsubscribe.waitGroup := pred (handleUnsubscribe.waitGroup unsub);
         handleUnsubscribe.err := handleUnsubscribe.err unsub |}.

Definition internalAck (ack : handleAck.t) : M handleAck.t :=
  let (id, err) := proto.Unmarshal (Serialize (handleAck.msgID ack)) in
  let ack :=
    match err with
    | Some e =>
        {| handleAck.msgID := handleAck.msgID ack;
           handleAck.waitGroup := handleAck.waitGroup ack;
           handleAck.err := Some e |}
    | None => ack
    end in
  let messageIDs := [] ++ [id] in
  requestID <- NewRequestId ;;
  cid <- gets consumerID ;;
  err <- doRequestOnCnxNoWait requestID ACK
           (CommandAck cid messageIDs CommandAck_Individual) ;;
  let ack :=
    match err with
    | Some e =>
        {| handleAck.msgID := handleAck.msgID ack;
           handleAck.waitGroup := handleAck.waitGroup ack;
           handleAck.err := Some e |}
    | None => ack
    end in
  onTracker (tracker.Remove id) ;;;
  ret {| handleAck.msgID := handleAck.msgID ack;
         handleAck.waitGroup := pred (handleAck.waitGroup ack);
         handleAck.err := handleAck.err ack |}.

Definition internalAckCumulative (ackCumulative : handleAckCumulative.t)
  : M handleAckCumulative.t :=
  let (id, err) := proto.Unmarshal (Serialize (handleAckCumulative.msgID ackCumulative)) in
  let ackCumulative :=
    match err with
    | Some e =>
        {| handleAckCumulative.msgID := handleAckCumulative.msgID ackCumulative;
           handleAckCumulative.err := Some e |}
    | None => ackCumulative
    end in
  let messageIDs := [] ++ [id] in
  requestID <- NewRequestId ;;
  cid <- gets consumerID ;;
  res <- doRequestOnCnx requestID ACK
           (CommandAck cid messageIDs CommandAck_Cumulative) ;;
  let ackCumulative :=
    match res with
    | inl e =>
        {| handleAckCumulative.msgID := handleAckCumulative.msgID ackCumulative;
           handleAckCumulative.err := Some e |}
    | inr _ => ackCumulative
    end in
  onTracker (tracker.Remove id) ;;;
  ret ackCumulative.

Definition internalSeek (seek : handleSeek.t) : M handleSeek.t :=
  let (id, err) := proto.Unmarshal (Serialize (handleSeek.msgID seek)) in
  let seek :=
    match err with
    | Some e => {| handleSeek.msgID := handleSeek.msgID seek; handleSeek.err := Some e |}
    | None => seek
    end in
  requestID <- NewRequestId ;;
  cid <- gets consumerID ;;
  res <- doRequestOnCnx requestID SEEK (CommandSeek cid requestID id) ;;
  ret match res with
      | inl e => {| handleSeek.msgID := handleSeek.msgID seek; handleSeek.err := Some e |}
      | inr _ => seek
      end.

(** [pc.overflow[i:end]] *)
Definition slice (A : Type) (l : list A) (i j : Z) : list A :=
  firstn (Z.to_nat (j - i)) (skipn (Z.to_nat i) l).

(** The [for] loop of [internalRedeliver].  Every round moves [i] on by
    [maxRedeliverUnacknowledged], so [fuel] above the length of the overflow
    list is never used up. *)
Fixpoint internalRedeliver_loop (fuel : nat) (i overFlowSize requestID : Z)
  (redeliver : handleRedeliver.t) : M handleRedeliver.t :=
  match fuel with
  | O => ret redeliver
  | S fuel' =>
      ov <- gets overflow ;;
      if i <? Z.of_nat (length ov) then
        let end_ := i + maxRedeliverUnacknowledged in
        let end_ := if end_ >? overFlowSize then overFlowSize else end_ in
        cid <- gets consumerID ;;
        res <- doRequestOnCnx requestID REDELIVER_UNACKNOWLEDGED_MESSAGES
                 (CommandRedeliverUnacknowledgedMessages cid (slice ov i end_)) ;;
        let redeliver :=
          match res with
          | inl e =>
              {| handleRedeliver.waitGroup := handleRedeliver.waitGroup redeliver;
                 handleRedeliver.err := Some e |}
          | inr _ => redeliver
          end in
        internalRedeliver_loop fuel' (i + maxRedeliverUnacknowledged)
          overFlowSize requestID redeliver
      else ret redeliver
  end.

Definition internalRedeliver (redeliver : handleRedeliver.t) : M handleRedeliver.t :=
  ov <- gets overflow ;;
  let overFlowSize := Z.of_nat (length ov) in
  if overFlowSize =? 0 then ret redeliver
  else
    requestID <- NewRequestId ;;
    redeliver <- internalRedeliver_loop (S (length ov)) 0 overFlowSize requestID redeliver ;;
    update (set_overflow []) ;;;
    onTracker tracker.clear ;;;
    ret {| handleRedeliver.waitGroup := pred (handleRedeliver.waitGroup redeliver);
           handleRedeliver.err := handleRedeliver.err redeliver |}.

Definition internalClose (req : handlerClose.t) : M handlerClose.t :=
  st <- gets state ;;
  if negb (isReady st) then
    ret {| handlerClose.waitGroup := pred (handlerClose.waitGroup req);
           handlerClose.err := handlerClose.err req |}
  else
    update (set_state consumerClosing) ;;;
    requestID <- NewRequestId ;;
    cid <- gets consumerID ;;
    res <- doRequestOnCnx requestID CLOSE_CONSUMER (CommandCloseConsumer cid requestID) ;;
    DeleteConsumeHandler cid ;;;
    req <- match res with
           | inl e =>
               ret {| handlerClose.waitGroup := handlerClose.waitGroup req;
                      handlerClose.err := Some e |}
           | inr _ => update (set_state consumerClosed) ;;; ret req
           end ;;
    ret {| handlerClose.waitGroup := pred (handlerClose.waitGroup req);
           handlerClose.err := handlerClose.err req |}.

(** ** The events loop *)

(** One round of the [switch] of [runEventsLoop]: the event with its record
    as the handler leaves it, and whether the loop returns. *)
Definition dispatch (i : event) : M (event * bool) :=
  match i with
  | EvClose v => v <- internalClose v ;; ret (EvClose v, true)
  | EvSeek v => v <- internalSeek v ;; ret (EvSeek v, false)
  | EvUnsubscribe v => v <- internalUnsubscribe v ;; ret (EvUnsubscribe v, false)
  | EvAckCumulative v => v <- internalAckCumulative v ;; ret (EvAckCumulative v, false)
  | EvAck v => v <- internalAck v ;; ret (EvAck v, false)
  | EvRedeliver v => v <- internalRedeliver v ;; ret (EvRedeliver v, false)
  | EvConnectionClosed => ret (EvConnectionClosed, false)
  end.

(** The loop on the events queued in the channel, oldest first, until the
    channel is empty (the goroutine then waits) or a close event makes it
    return.  The handlers post no events, so the queue read at the start is
    the queue the loop sees.  The result lists the events handled. *)
Fixpoint runEventsLoop_on (evs : list event) : M (list event) :=
  match evs with
  | [] => ret []
  | i :: rest =>
      update (set_eventsChan rest) ;;;
      r <- dispatch i ;;
      if snd r then (fun s => ([fst r], set_loopRunning false s))
      else handled <- runEventsLoop_on rest ;; ret (fst r :: handled)
  end.

Definition runEventsLoop : M (list event) :=
  fun s =>
    if loopRunning s then runEventsLoop_on (eventsChan (self s)) s
    else ([], s).

(** [pc.eventsChan <- ev].  With the loop gone and the buffer full the send
    never proceeds ([false]). *)
Definition post (ev : event) : M bool :=
  fun s =>
    if loopRunning s || (length (eventsChan (self s)) <? eventsChanCapacity)%nat
    then (true, with_self (fun pc => set_eventsChan (eventsChan pc ++ [ev]) pc) s)
    else (false, s).

(** Post an event and let the events loop run while the caller sits in
    [wg.Wait()], no other goroutine posting meanwhile: the event comes back
    as its handler left it, or not at all when the loop never gets to it. *)
Definition postAndRun (ev : event) : M (option event) :=
  posted <- post ev ;;
  if posted then
    handled <- runEventsLoop ;;
    left <- gets eventsChan ;;
    ret match left with
        | [] => last (map Some handled) None
        | _ :: _ => None
        end
  else ret None.

(** [wg.Wait(); return h.err]: returns once the counter is zero. *)
Definition Wait (A : Type) (waitGroup : nat) (v : A) : option A :=
  match waitGroup with O => Some v | S _ => None end.

(** ** Public operations.  The result [None] is a call that never returns. *)

Definition Unsubscribe : M (option (option error)) :=
  r <- postAndRun (EvUnsubscribe {| handleUnsubscribe.waitGroup := 1;
                                    handleUnsubscribe.err := None |}) ;;
  ret match r with
      | Some (EvUnsubscribe hu) =>
          Wait (handleUnsubscribe.waitGroup hu) (handleUnsubscribe.err hu)
      | _ => None
      end.

Definition AckID (msgID : MessageID) : M (option (option error)) :=
  r <- postAndRun (EvAck {| handleAck.msgID := msgID; handleAck.waitGroup := 1;
                            handleAck.err := None |}) ;;
  ret match r with
      | Some (EvAck ha) => Wait (handleAck.waitGroup ha) (handleAck.err ha)
      | _ => None
      end.

Definition Ack (msg : message) : M (option (option error)) := AckID (ID msg).

(** No wait here: the caller reads [hac.err] as soon as the event is in the
    channel, when the events loop has not touched the record. *)
Definition AckCumulativeID (msgID : MessageID) : M (option (option error)) :=
  let hac := {| handleAckCumulative.msgID := msgID;
                handleAckCumulative.err := None |} in
  posted <- post (EvAckCumulative hac) ;;
  ret (if posted then Some (handleAckCumulative.err hac) else None).

Definition AckCumulative (msg : message) : M (option (option error)) :=
  AckCumulativeID (ID msg).

Definition Close : M (option (option error)) :=
  st <- gets state ;;
  if negb (isReady st) then ret (Some None)
  else
    onTracker tracker.Stop ;;;
    r <- postAndRun (EvClose {| handlerClose.waitGroup := 1;
                                handlerClose.err := None |}) ;;
    ret match r with
        | Some (EvClose cc) => Wait (handlerClose.waitGroup cc) (handlerClose.err cc)
        | _ => None
        end.

Definition Seek (msgID : MessageID) : M (option (option error)) :=
  let hc := {| handleSeek.msgID := msgID; handleSeek.err := None |} in
  posted <- post (EvSeek hc) ;;
  ret (if posted then Some (handleSeek.err hc) else None).

Definition RedeliverUnackedMessages : M (option (option error)) :=
  r <- postAndRun (EvRedeliver {| handleRedeliver.waitGroup := 1;
                                  handleRedeliver.err := None |}) ;;
  ret match r with
      | Some (EvRedeliver hr) =>
          Wait (handleRedeliver.waitGroup hr) (handleRedeliver.err hr)
      | _ => None
      end.

Definition ConnectionClosed : M bool := post EvConnectionClosed.

(** [reconnectToBroker]; [fuel] bounds the attempts, [false] is a loop
    still retrying when the fuel ends. *)
Fixpoint reconnectToBroker (fuel : nat) : M bool :=
  match fuel with
  | O => ret false
  | S fuel' =>
      st <- gets state ;;
      if negb (isReady st) then ret true
      else
        err <- grabCnx ;;
        match err with
        | None => ret true
        | Some _ => reconnectToBroker fuel'
        end
  end.

(** ** Inbound messages *)

(** What a call of the handler comes to: it returns, or the send on a
    closed delivery queue panics. *)
Inductive handlerResult :=
| Returned (e : option error)
| Panicked.

Definition set_channel (c : chan ConsumerMessage) (pc : partitionConsumer) :=
  set_options (set_MessageChannel (Some c) (options pc)) pc.

Definition HandlerMessage (response : CommandMessage) (headersAndPayload : list Z)
  : M handlerResult :=
  let msgID := GetMessageId response in
  pc <- gets (fun pc => pc) ;;
  let id := newMessageId (int64 (GetLedgerId msgID)) (int64 (GetEntryId msgID))
              (partitionIdx pc) (GetBatchIndex msgID) in
  match ParseMessage (client pc) headersAndPayload with
  | inl err => ret (Returned (Some (ErrParseMessage err)))
  | inr (msgMeta, payload) =>
      let msg :=
        {| publishTime := timeFromUnixTimestampMillis (PublishTime msgMeta);
           eventTime := timeFromUnixTimestampMillis (EventTime msgMeta);
           key := PartitionKey msgMeta;
           properties := ConvertToStringMap (client pc) (Properties msgMeta);
           impl_message.topic := topic pc;
           msgID := IdImpl id;
           payLoad := payload |} in
      let consumerMsg := {| Message := msg; Consumer := consumerID pc |} in
      let overflowed :=
        (* default: add the message id to the overflow buffer, avoiding duplicates *)
        let newMid := GetMessageId response in
        let dup := existsb (fun mid => Equal mid newMid) (overflow pc) in
        when (negb dup) (update (fun pc => set_overflow (overflow pc ++ [newMid]) pc)) ;;;
        ret (Returned (Some (ErrQueueFull (topic pc) (cap (MessageChannel (options pc)))))) in
      match MessageChannel (options pc) with
      | Some ch =>
          if closed ch then ret Panicked
          else if Z.of_nat (length (buf ch)) <? capacity ch then
            update (set_channel {| buf := buf ch ++ [consumerMsg];
                                   capacity := capacity ch; closed := closed ch |}) ;;;
            ret (Returned None)
          else overflowed
      | None => overflowed
      end
  end.

(** ** Receiving *)

(** A [context.Context]: [Done()] is closed exactly when [Err()] is not nil. *)
Record Context := { Err : option ctxError }.

(** The case a [select] takes when both of its cases can proceed. *)
Inductive selectPick := PickDone | PickRecv.

Inductive selected :=
| SelBlocked
| SelDone (e : ctxError)
| SelRecv (cm : option ConsumerMessage) (ch : chan ConsumerMessage).

(** [cm, ok := <-ch]: the oldest queued value; on an empty closed channel
    the zero value with [ok = false], here [None]. *)
Definition recv (ch : option (chan ConsumerMessage))
  : option (option ConsumerMessage * chan ConsumerMessage) :=
  match ch with
  | None => None
  | Some c =>
      match buf c with
      | cm :: rest =>
          Some (Some cm, {| buf := rest; capacity := capacity c; closed := closed c |})
      | [] => if closed c then Some (None, c) else None
      end
  end.

(** The [select] over [ctx.Done()] and the delivery queue. *)
Definition select (pick : selectPick) (ctx : Context)
  (ch : option (chan ConsumerMessage)) : selected :=
  match Err ctx, recv ch with
  | None, None => SelBlocked
  | Some e, None => SelDone e
  | None, Some (cm, c) => SelRecv cm c
  | Some e, Some (cm, c) =>
      match pick with
      | PickDone => SelDone e
      | PickRecv => SelRecv cm c
      end
  end.

(** [Receive]; [None] is a call still blocked in the [select]. *)
Definition Receive (pick : selectPick) (ctx : Context) : M (option (error + message)) :=
  o <- gets options ;;
  match select pick ctx (MessageChannel o) with
  | SelBlocked => ret None
  | SelDone e => ret (Some (inl (ErrContext e)))
  | SelRecv (Some cm) c =>
      update (set_channel c) ;;;
      let (id, err) := proto.Unmarshal (Serialize (ID (Message cm))) in
      match err with
      | Some e => ret (Some (inl e))
      | None =>
          onTracker (tracker.Add id) ;;;
          ret (Some (inr (Message cm)))
      end
  | SelRecv None _ => ret (Some (inl ErrReceiveQueueClosed))
  end.

(** [uint32(math.Max(float64(cap/2), 1))]; the conversions are exact for
    capacities below [2^33]. *)
Definition highwaterOf (capacity : Z) : Z := uint32 (Z.max (capacity / 2) 1).

(** What happens, in order, while [ReceiveAsync] runs: a round of its loop
    (with the pick of its [select]), a push of the connection layer into the
    handler, or the cancellation of the context. *)
Inductive tick :=
| TickSelect (pick : selectPick)
| TickHandlerMessage (response : CommandMessage) (headersAndPayload : list Z)
| TickCancel (e : ctxError).

(** A run of [ReceiveAsync]: the error it returned, if it has returned; the
    messages sent into [msgs]; the counter [receivedSinceFlow]. *)
Record asyncRun := {
  returned : option error;
  msgs : list ConsumerMessage;
  receivedSinceFlow : Z
}.

Definition cancel (e : ctxError) (ctx : Context) : Context :=
  match Err ctx with
  | Some _ => ctx
  | None => {| Err := Some e |}
  end.

Fixpoint ReceiveAsync_loop (sched : list tick) (ctx : Context) (highwater : Z)
  (msgs : list ConsumerMessage) (receivedSinceFlow : Z) : M asyncRun :=
  match sched with
  | [] => ret {| returned := None; msgs := msgs; receivedSinceFlow := receivedSinceFlow |}
  | TickHandlerMessage response headersAndPayload :: sched' =>
      HandlerMessage response headersAndPayload ;;;
      ReceiveAsync_loop sched' ctx highwater msgs receivedSinceFlow
  | TickCancel e :: sched' =>
      ReceiveAsync_loop sched' (cancel e ctx) highwater msgs receivedSinceFlow
  | TickSelect pick :: sched' =>
      o <- gets options ;;
      match select pick ctx (MessageChannel o) with
      | SelBlocked => ReceiveAsync_loop sched' ctx highwater msgs receivedSinceFlow
      | SelDone e =>
          ret {| returned := Some (ErrContext e); msgs := msgs;
                 receivedSinceFlow := receivedSinceFlow |}
      | SelRecv None _ => ReceiveAsync_loop sched' ctx highwater msgs receivedSinceFlow
      | SelRecv (Some tmpMsg) c =>
          update (set_channel c) ;;;
          let msgs := msgs ++ [tmpMsg] in
          let (id, err) := proto.Unmarshal (Serialize (ID (Message tmpMsg))) in
          match err with
          | Some e =>
              ret {| returned := Some e; msgs := msgs;
                     receivedSinceFlow := receivedSinceFlow |}
          | None =>
              onTracker (tracker.Add id) ;;;
              let receivedSinceFlow := uint32 (receivedSinceFlow + 1) in
              if receivedSinceFlow >=? highwater then
                err <- internalFlow receivedSinceFlow ;;
                match err with
                | Some e =>
                    ret {| returned := Some e; msgs := msgs;
                           receivedSinceFlow := receivedSinceFlow |}
                | None => ReceiveAsync_loop sched' ctx highwater msgs 0
                end
              else ReceiveAsync_loop sched' ctx highwater msgs receivedSinceFlow
          end
      end
  end.

Definition ReceiveAsync (sched : list tick) (ctx : Context) : M asyncRun :=
  o <- gets options ;;
  let highwater := highwaterOf (cap (MessageChannel o)) in
  err <- internalFlow highwater ;;
  match err with
  | Some e => ret {| returned := Some e; msgs := []; receivedSinceFlow := 0 |}
  | None => ReceiveAsync_loop sched ctx highwater [] 0
  end.

End consumer.

(* ================================================================== *)
(** * Sample collaborators and consumers *)

Module sample.
Import impl_message consumer.
#[local] Open Scope string_scope.

Definition meta : MessageMetadata :=
  {| PublishTime := 1500; EventTime := 0; PartitionKey := "k"; Properties := [] |}.

Definition success : BaseCommand :=
  {| GetType := SUCCESS; GetError := (0, ""); ConsumerStatsResponse := None |}.

(** Collaborators that answer every call with success; the payload of a
    pushed frame is the frame itself. *)
Definition broker : collaborators :=
  {| Lookup := fun _ _ => inr {| LogicalAddr := "b1"; PhysicalAddr := "b1" |};
     Request := fun _ _ _ _ _ => inr {| Response := success; Cnx := 7 |};
     RequestOnCnx := fun _ _ _ _ => inr success;
     RequestOnCnxNoWait := fun _ _ _ _ => None;
     ParseMessage := fun b => inr (meta, b);
     ConvertToStringMap := fun l => l |}.

(** The same, with a connection on which every awaited request fails. *)
Definition brokenBroker : collaborators :=
  {| Lookup := Lookup broker; Request := Request broker;
     RequestOnCnx := fun _ _ _ _ => inl (ErrCollaborator 1);
     RequestOnCnxNoWait := RequestOnCnxNoWait broker;
     ParseMessage := ParseMessage broker;
     ConvertToStringMap := ConvertToStringMap broker |}.

Definition opts (t : SubscriptionType) (size : Z) : ConsumerOptions :=
  {| SubscriptionName := "sub"; Name := "c1"; Type_ := t;
     SubscriptionInitPos := Latest; ReceiverQueueSize := size;
     AckTimeout := 0; MessageChannel := None |}.

Definition rpc0 : rpcState :=
  {| nextRequestId := 1; nextConsumerId := 40; lookups := 0; wire := [];
     consumeHandlers := [] |}.

Definition ready (cl : collaborators) (t : SubscriptionType) (size : Z) : system :=
  snd (newPartitionConsumer cl rpc0 "t" (opts t size) 3).

Definition mid (l e : Z) : proto.MessageIdData :=
  {| proto.LedgerId := Some l; proto.EntryId := Some e; proto.Partition := None;
     proto.BatchIndex := Some 9; proto.XXX_unrecognized := [] |}.

Definition push (l e : Z) : CommandMessage :=
  {| msgConsumerId := 40; MessageId := Some (mid l e) |}.

(** A delivered message and a consumer with that message waiting in its
    delivery queue. *)
Definition delivered : ConsumerMessage :=
  {| Message :=
       {| publishTime := (1, 500000000); eventTime := (0, 0); key := "k";
          payLoad := [7];
          msgID := IdImpl {| ledgerID := 1; entryID := 1; batchIdx := 3;
                             impl_message.partitionIdx := 9 |};
          properties := []; impl_message.topic := "t" |};
     Consumer := 40 |}.

Definition waitingQueue : chan ConsumerMessage :=
  {| buf := [delivered]; capacity := 2; closed := false |}.

Definition waiting : system :=
  with_self (set_channel waitingQueue) (ready broker Shared 2).
End sample.

(* ================================================================== *)
(** * Sequences of calls *)

Module runs.
Import consumer.

(** The connection layer pushing one frame after the other into the
    handler. *)
Fixpoint handlerCalls (calls : list (CommandMessage * list Z)) (s : system) : system :=
  match calls with
  | [] => s
  | (response, headersAndPayload) :: calls' =>
      handlerCalls calls' (snd (HandlerMessage response headersAndPayload s))
  end.

(** One run of [reconnectToBroker] per loss of the connection, each with
    its bound on the attempts. *)
Fixpoint reconnects (losses : list nat) (s : system) : system :=
  match losses with
  | [] => s
  | fuel :: losses' => reconnects losses' (snd (reconnectToBroker fuel s))
  end.

(** The consumer id and the subscription name of a SUBSCRIBE request. *)
Definition subscribeIdentity (c : rpcCall) : option (Z * string) :=
  match cmd c with
  | CommandSubscribe _ _ _ subscription consumerId _ _ => Some (consumerId, subscription)
  | _ => None
  end.

(** The permits of a FLOW request sent without waiting. *)
Definition flowPermits (c : rpcCall) : option Z :=
  match method c, cmdType c, cmd c with
  | ViaRequestOnCnxNoWait _, FLOW, CommandFlow _ permits => Some permits
  | _, _, _ => None
  end.

(** The permits granted by a list of requests. *)
Definition permitsGranted (calls : list rpcCall) : Z :=
  fold_right Z.add 0
    (map (fun c => match flowPermits c with Some p => p | None => 0 end) calls).


(** The ids of a REDELIVER_UNACKNOWLEDGED_MESSAGES request. *)
Definition redeliverIds (c : rpcCall) : option (list (option proto.MessageIdData)) :=
  match cmdType c, cmd c with
  | REDELIVER_UNACKNOWLEDGED_MESSAGES, CommandRedeliverUnacknowledgedMessages _ ids =>
      Some ids
  | _, _ => None
  end.

(** A consumer in its steady state: the events loop is waiting on an empty
    events channel. *)
Definition idle (s : system) : Prop :=
  loopRunning s = true /\ eventsChan (self s) = [].

(** The request on the current connection that [s] would send next. *)
Definition nextOnCnx (s : system) (t : BaseCommand_Type) (c : Command) : rpcCall :=
  {| method := ViaRequestOnCnx (cnx (self s)); requestID := nextRequestId (rpc s);
     cmdType := t; cmd := c |}.

Definition nextOnCnxNoWait (s : system) (t : BaseCommand_Type) (c : Command) : rpcCall :=
  {| method := ViaRequestOnCnxNoWait (cnx (self s)); requestID := nextRequestId (rpc s);
     cmdType := t; cmd := c |}.

(** The messages waiting in the delivery queue. *)
Definition queued (s : system) : list ConsumerMessage :=
  match MessageChannel (options (self s)) with
  | Some c => buf c
  | None => []
  end.

(** The wire form of a message id, as [Serialize] builds it. *)
Definition wireForm (id : impl_message.messageId) : proto.MessageIdData :=
  {| proto.LedgerId := Some (uint64 (impl_message.ledgerID id));
     proto.EntryId := Some (uint64 (impl_message.entryID id));
     proto.Partition := Some (int32 (impl_message.partitionIdx id));
     proto.BatchIndex := Some (int32 (impl_message.batchIdx id));
     proto.XXX_unrecognized := [] |}.

(** A request is no SUBSCRIBE, or a SUBSCRIBE for this consumer id and
    subscription. *)
Definition carries (id : Z) (subscription : string) (c : rpcCall) : Prop :=
  subscribeIdentity c = None \/ subscribeIdentity c = Some (id, subscription).

(** The message the handler builds from a frame, for the consumer as it
    stands. *)
Definition built (s : system) (response : CommandMessage) (headersAndPayload : list Z)
  : option ConsumerMessage :=
  match ParseMessage (client (self s)) headersAndPayload with
  | inl _ => None
  | inr (msgMeta, payload) =>
      Some {| Message :=
                {| impl_message.publishTime :=
                     impl_message.timeFromUnixTimestampMillis (PublishTime msgMeta);
                   impl_message.eventTime :=
                     impl_message.timeFromUnixTimestampMillis (EventTime msgMeta);
                   impl_message.key := PartitionKey msgMeta;
                   impl_message.payLoad := payload;
                   impl_message.msgID :=
                     impl_message.IdImpl
                       (impl_message.newMessageId
                          (int64 (GetLedgerId (GetMessageId response)))
                          (int64 (GetEntryId (GetMessageId response)))
                          (partitionIdx (self s))
                          (GetBatchIndex (GetMessageId response)));
                   impl_message.properties :=
                     ConvertToStringMap (client (self s)) (Properties msgMeta);
                   impl_message.topic := topic (self s) |};
              Consumer := consumerID (self s) |}
  end.

(** [n] calls of [Receive], one after the other, with a context that is
    not done. *)
Fixpoint receives (n : nat) (s : system)
  : list (option (error + impl_message.message)) * system :=
  match n with
  | O => ([], s)
  | S n' =>
      let (r, s1) := Receive PickRecv {| Err := None |} s in
      let (rs, s2) := receives n' s1 in
      (r :: rs, s2)
  end.

(** The message a call of [Receive] returned, if it returned one. *)
Definition received (r : option (error + impl_message.message))
  : option impl_message.message :=
  match r with
  | Some (inr m) => Some m
  | _ => None
  end.

(** The last request of a system, if any. *)
Definition lastCall (s : system) : option rpcCall :=
  last (map Some (wire (rpc s))) None.

(** Whether a consume handler for the consumer is registered on its
    connection. *)
Definition handlerRegistered (s : system) : bool :=
  match cnx (self s) with
  | Some c => existsb (sameHandler (c, consumerID (self s))) (consumeHandlers (rpc s))
  | None => false
  end.

(** Whether the id of a message decodes, as [Receive] and [ReceiveAsync]
    decode it. *)
Definition decodes (cm : ConsumerMessage) : bool :=
  match snd (proto.Unmarshal (impl_message.Serialize (impl_message.ID (Message cm)))) with
  | None => true
  | Some _ => false
  end.

End runs.

(* ================================================================== *)
(** * The varint codec *)

Section Varint.

Import proto.

Lemma land_127_small (x : Z) : 0 <= x <= 127 -> Z.land x 127 = x.
Proof.
  intros H. change 127 with (Z.ones 7). rewrite Z.land_ones by lia.
  apply Z.mod_small. lia.
Qed.

Lemma land_128_small (x : Z) : 0 <= x <= 127 -> Z.land x 128 = 0.
Proof.
  intros H. rewrite <- (land_127_small H) at 1.
  rewrite <- Z.land_assoc. change (Z.land 127 128) with 0. apply Z.land_0_r.
Qed.

Lemma continuation_low (x : Z) : Z.land (Z.lor 128 (Z.land x 127)) 127 = Z.land x 127.
Proof.
  rewrite Z.land_lor_distr_l. change (Z.land 128 127) with 0.
  rewrite Z.lor_0_l, <- Z.land_assoc. reflexivity.
Qed.

Lemma continuation_high (x : Z) : Z.land (Z.lor 128 (Z.land x 127)) 128 = 128.
Proof.
  rewrite Z.land_lor_distr_l, <- Z.land_assoc.
  change (Z.land 127 128) with 0. rewrite Z.land_0_r. reflexivity.
Qed.

Lemma split_low7 (x s : Z) :
  0 <= s ->
  Z.lor (Z.shiftl (Z.land x 127) s) (Z.shiftl (Z.shiftr x 7) (s + 7)) = Z.shiftl x s.
Proof.
  intros Hs. apply Z.bits_inj'. intros n Hn.
  rewrite Z.lor_spec, !Z.shiftl_spec by lia.
  rewrite Z.land_spec. change 127 with (Z.ones 7).
  rewrite Z.testbit_ones by lia.
  destruct (Z.ltb_spec (n - s) 7) as [Hlt | Hge].
  - rewrite (Z.testbit_neg_r _ (n - (s + 7))) by lia.
    rewrite orb_false_r.
    destruct (Z.leb_spec 0 (n - s)); simpl.
    + apply andb_true_r.
    + rewrite andb_false_r. symmetry. apply Z.testbit_neg_r. lia.
  - rewrite andb_false_r, andb_false_r. simpl.
    rewrite Z.shiftr_spec by lia. f_equal. lia.
Qed.

Lemma shiftl_bound (x s k : Z) :
  0 <= s -> 0 <= k -> 0 <= x < 2 ^ k -> 0 <= Z.shiftl x s < 2 ^ (k + s).
Proof.
  intros Hs Hk Hx. rewrite Z.shiftl_mul_pow2 by lia.
  rewrite Z.pow_add_r by lia. nia.
Qed.

Lemma DecodeVarint_loop_cons (fuel : nat) (shift x b : Z) (rest : list Z) :
  DecodeVarint_loop (S fuel) shift x (b :: rest)
  = if Z.land b 128 =? 0
    then Some (Z.lor x (uint64 (Z.shiftl (Z.land b 127) shift)), rest)
    else DecodeVarint_loop fuel (shift + 7)
           (Z.lor x (uint64 (Z.shiftl (Z.land b 127) shift))) rest.
Proof. reflexivity. Qed.

Lemma DecodeVarint_loop_EncodeVarint_loop (fuel : nat) :
  forall x shift acc rest,
    0 <= shift -> 0 <= x < 2 ^ (64 - shift) ->
    64 - shift <= 7 * Z.of_nat fuel + 7 ->
    DecodeVarint_loop (S fuel) shift acc (EncodeVarint_loop fuel x ++ rest)
    = Some (Z.lor acc (Z.shiftl x shift), rest).
Proof.
  induction fuel as [| fuel IH]; intros x shift acc rest Hs Hx Hfuel.
  - assert (Hk : 0 <= 64 - shift <= 7) by (split; [|lia]; destruct (Z.le_gt_cases 0 (64 - shift)); [lia|]; rewrite Z.pow_neg_r in Hx by lia; lia).
    assert (x < 128).
    { apply Z.lt_le_trans with (2 ^ (64 - shift)); [lia|].
      change 128 with (2 ^ 7). apply Z.pow_le_mono_r; lia. }
    cbn [EncodeVarint_loop app]. rewrite DecodeVarint_loop_cons.
    rewrite Z.mod_small by lia.
    rewrite land_128_small, land_127_small by lia. simpl Z.eqb. cbv iota.
    unfold uint64. rewrite Z.mod_small; [reflexivity|].
    pose proof (@shiftl_bound x shift (64 - shift)) as B.
    replace (64 - shift + shift) with 64 in B by lia. apply B; lia.
  - assert (Hk : 0 <= 64 - shift) by (destruct (Z.le_gt_cases 0 (64 - shift)); [lia|]; rewrite Z.pow_neg_r in Hx by lia; lia).
    cbn [EncodeVarint_loop].
    destruct (Z.ltb_spec 127 x) as [Hbig | Hsmall].
    + rewrite <- app_comm_cons, DecodeVarint_loop_cons.
      rewrite continuation_high, continuation_low. simpl Z.eqb. cbv iota.
      assert (H7 : 7 < 64 - shift).
      { destruct (Z.lt_ge_cases 7 (64 - shift)); [assumption|].
        assert (2 ^ (64 - shift) <= 2 ^ 7) by (apply Z.pow_le_mono_r; lia).
        change (2 ^ 7) with 128 in *. lia. }
      rewrite IH.
      * f_equal. f_equal. unfold uint64.
        rewrite Z.mod_small.
        -- rewrite <- Z.lor_assoc, split_low7 by lia. reflexivity.
        -- assert (0 <= Z.land x 127 < 2 ^ 7).
           { change 127 with (Z.ones 7). rewrite Z.land_ones by lia.
             apply Z.mod_pos_bound. lia. }
           pose proof (@shiftl_bound (Z.land x 127) shift 7) as B.
           assert (2 ^ (7 + shift) <= 2 ^ 64) by (apply Z.pow_le_mono_r; lia).
           lia.
      * lia.
      * rewrite Z.shiftr_div_pow2 by lia. split.
        -- apply Z.div_pos; lia.
        -- apply Z.div_lt_upper_bound; [lia|].
           rewrite <- Z.pow_add_r by lia.
           replace (7 + (64 - (shift + 7))) with (64 - shift) by lia. lia.
      * lia.
    + cbn [app]. rewrite DecodeVarint_loop_cons.
      rewrite Z.mod_small by lia.
      rewrite land_128_small, land_127_small by lia. simpl Z.eqb. cbv iota.
      unfold uint64. rewrite Z.mod_small; [reflexivity|].
      pose proof (@shiftl_bound x shift (64 - shift)) as B.
      replace (64 - shift + shift) with 64 in B by lia. apply B; lia.
Qed.

Lemma DecodeVarint_EncodeVarint (x : Z) (rest : list Z) :
  0 <= x < 2 ^ 64 -> DecodeVarint (EncodeVarint x ++ rest) = Some (x, rest).
Proof.
  intros Hx. unfold DecodeVarint, EncodeVarint, maxVarintBytes.
  cbn [pred]. rewrite DecodeVarint_loop_EncodeVarint_loop.
  - rewrite Z.shiftl_0_r. reflexivity.
  - lia.
  - exact Hx.
  - simpl. lia.
Qed.

End Varint.

(* ================================================================== *)
(** * The message id codec *)

Section Codec.

Import proto impl_message.

Lemma int64_uint64 (x : Z) : int64_range x -> int64 (uint64 x) = x.
Proof.
  unfold int64_range, int64, uint64. intros H.
  rewrite Zplus_mod_idemp_l, Z.mod_small; lia.
Qed.

Lemma int32_small (x : Z) : int32_range x -> int32 x = x.
Proof.
  unfold int32_range, int32. intros H. rewrite Z.mod_small; lia.
Qed.

Lemma int32_uint64 (x : Z) : int32_range x -> int32 (uint64 x) = x.
Proof.
  unfold int32_range, int32, uint64. intros H.
  destruct (Z.le_gt_cases 0 x).
  - rewrite (Z.mod_small x) by lia. rewrite Z.mod_small; lia.
  - replace (x mod 2 ^ 64) with (x + 2 ^ 64).
    + replace (x + 2 ^ 64 + 2 ^ 31) with (x + 2 ^ 31 + 2 ^ 32 * 2 ^ 32) by lia.
      rewrite Z_mod_plus_full, Z.mod_small; lia.
    + apply Z.mod_unique with (q := -1); lia.
Qed.

Lemma int32_in_range (x : Z) : int32_range (int32 x).
Proof.
  unfold int32_range, int32.
  pose proof (Z.mod_pos_bound (x + 2 ^ 31) (2 ^ 32)). lia.
Qed.

Lemma uint64_idem (x : Z) : uint64 (uint64 x) = uint64 x.
Proof. unfold uint64. apply Z.mod_mod. lia. Qed.

Lemma uint64_in_range (x : Z) : 0 <= uint64 x < 2 ^ 64.
Proof. unfold uint64. apply Z.mod_pos_bound. lia. Qed.

Lemma EncodeVarint_nonempty (x : Z) : (1 <= length (EncodeVarint x))%nat.
Proof.
  unfold EncodeVarint. generalize (pred maxVarintBytes). intros fuel.
  destruct fuel; cbn [EncodeVarint_loop]; [|destruct (127 <? x)];
    cbn [length]; lia.
Qed.

Lemma DecodeVarint_one_byte (b : Z) (rest : list Z) :
  0 <= b <= 127 -> DecodeVarint (b :: rest) = Some (b, rest).
Proof.
  intros Hb. unfold DecodeVarint, maxVarintBytes.
  rewrite DecodeVarint_loop_cons, land_128_small, land_127_small by lia.
  simpl Z.eqb. cbv iota. rewrite Z.shiftl_0_r. unfold uint64.
  rewrite Z.mod_small by lia. reflexivity.
Qed.

Lemma Unmarshal_loop_cons (fuel : nat) (m : MessageIdData) (b0 : Z) (b' : list Z) :
  Unmarshal_loop (S fuel) m (b0 :: b')
  = match DecodeVarint (b0 :: b') with
    | None => Some (m, Some ErrUnexpectedEOF)
    | Some (x, b1) =>
        if knownTag (Z.shiftr x 3) && (Z.land x 7 =? WireVarint) then
          match DecodeVarint b1 with
          | None => Some (m, Some ErrUnexpectedEOF)
          | Some (v, b2) => Unmarshal_loop fuel (setField (Z.shiftr x 3) v m) b2
          end
        else
          match skipField b1 (Z.land x 7) with
          | inl e => Some (m, Some e)
          | inr b2 =>
              Unmarshal_loop fuel
                (keepUnrecognized
                   (EncodeVarint (Z.lor (Z.shiftl (Z.shiftr x 3) 3) (Z.land x 7))
                    ++ firstn (length b1 - length b2) b1) m)
                b2
          end
    end.
Proof. reflexivity. Qed.

(** One round of the decode loop on a varint field of the schema. *)
Lemma Unmarshal_loop_field (fuel : nat) (m : MessageIdData) (tag v : Z) (rest : list Z) :
  1 <= tag <= 4 ->
  Unmarshal_loop (S fuel) m (appendVarintField tag (Some v) ++ rest)
  = Unmarshal_loop fuel (setField tag (uint64 v) m) rest.
Proof.
  intros Htag. unfold appendVarintField.
  assert (Hcases : tag = 1 \/ tag = 2 \/ tag = 3 \/ tag = 4) by lia.
  destruct Hcases as [-> | [-> | [-> | ->]]];
    (rewrite <- app_assoc;
     match goal with
     | |- context [EncodeVarint (Z.lor (Z.shiftl ?t 3) WireVarint)] =>
         change (EncodeVarint (Z.lor (Z.shiftl t 3) WireVarint)) with [8 * t]
     end;
     cbn [app Z.mul Pos.mul];
     rewrite Unmarshal_loop_cons, DecodeVarint_one_byte by lia;
     cbn [Z.shiftr Z.land knownTag andb Z.eqb Z.leb];
     rewrite DecodeVarint_EncodeVarint by apply uint64_in_range;
     reflexivity).
Qed.

Lemma Unmarshal_loop_nil (fuel : nat) (m : MessageIdData) :
  Unmarshal_loop (S fuel) m [] = Some (m, requiredNotSet m).
Proof. reflexivity. Qed.

Lemma length_field (tag v : Z) (rest : list Z) :
  (1 + length rest <= length (appendVarintField tag (Some v) ++ rest))%nat.
Proof.
  unfold appendVarintField. rewrite !length_app.
  pose proof (EncodeVarint_nonempty (uint64 v)). lia.
Qed.

Lemma Unmarshal_Serialize (id : messageId) :
  Unmarshal (messageId_Serialize id) = (runs.wireForm id, None).
Proof.
  unfold runs.wireForm, Unmarshal, messageId_Serialize, Marshal, proto.Uint64, proto.Int.
  cbn [fst LedgerId EntryId Partition BatchIndex XXX_unrecognized].
  set (f4 := appendVarintField 4 _ ++ []).
  set (f3 := appendVarintField 3 _ ++ f4).
  set (f2 := appendVarintField 2 _ ++ f3).
  set (buf := appendVarintField 1 _ ++ f2).
  assert (H4 : (1 + length (@nil Z) <= length f4)%nat) by apply length_field.
  assert (H3 : (1 + length f4 <= length f3)%nat) by apply length_field.
  assert (H2 : (1 + length f3 <= length f2)%nat) by apply length_field.
  assert (H1 : (1 + length f2 <= length buf)%nat) by apply length_field.
  cbn [length] in H4.
  destruct (length buf) as [| [| [| [| n]]]]; try lia.
  subst buf f2 f3 f4.
  rewrite !Unmarshal_loop_field, Unmarshal_loop_nil by lia.
  unfold setField. cbn.
  rewrite !uint64_idem, !int32_uint64 by apply int32_in_range.
  reflexivity.
Qed.

(** C1.  For every MessageID of the data model (64-bit ledger and entry
    ids, 32-bit batch and partition indices), decoding the bytes produced
    by encoding it yields an id equal to it field for field. *)
Theorem deserializeMessageId_Serialize (id : messageId) :
  MessageID_model id -> deserializeMessageId (messageId_Serialize id) = inr id.
Proof.
  intros (Hl & He & Hb & Hp). unfold deserializeMessageId.
  rewrite Unmarshal_Serialize.
  unfold runs.wireForm, GetLedgerId, GetEntryId, GetBatchIndex, GetPartition, newMessageId.
  cbn [LedgerId EntryId Partition BatchIndex].
  rewrite !int64_uint64, !int32_small by assumption.
  destruct id; reflexivity.
Qed.

(** The latest-message sentinel. *)
Lemma deserializeMessageId_Serialize_witness :
  MessageID_model latestMessageID
  /\ deserializeMessageId (messageId_Serialize latestMessageID) = inr latestMessageID.
Proof.
  assert (H : MessageID_model latestMessageID)
    by (unfold MessageID_model, int64_range, int32_range, latestMessageID,
          newMessageId, maxLong;
        cbn [ledgerID entryID batchIdx partitionIdx]; lia).
  exact (conj H (deserializeMessageId_Serialize H)).
Defined.

End Codec.

(* ================================================================== *)
(** * The inbound handler and the overflow list *)

Section Equality.

Lemma eqb_optZ_eq (a b : option Z) : proto.eqb_optZ a b = true <-> a = b.
Proof.
  destruct a as [x|], b as [y|]; simpl; try (split; congruence).
  rewrite Z.eqb_eq. split; congruence.
Qed.

Lemma eqb_bytes_eq (a : list Z) : forall b, proto.eqb_bytes a b = true <-> a = b.
Proof.
  induction a as [| x a IH]; intros [| y b]; simpl; try (split; congruence).
  rewrite andb_true_iff, Z.eqb_eq, IH. split.
  - intros [-> ->]. reflexivity.
  - intros H. injection H. auto.
Qed.

Lemma proto_Equal_eq (a b : proto.MessageIdData) : proto.Equal a b = true <-> a = b.
Proof.
  unfold proto.Equal. rewrite !andb_true_iff, !eqb_optZ_eq, eqb_bytes_eq.
  destruct a, b; simpl. split.
  - intros [[[[-> ->] ->] ->] ->]. reflexivity.
  - intros H. injection H. auto.
Qed.

Lemma Equal_eq (a b : option proto.MessageIdData) : consumer.Equal a b = true <-> a = b.
Proof.
  destruct a as [x|], b as [y|]; simpl; try (split; congruence).
  rewrite proto_Equal_eq. split; congruence.
Qed.

Lemma existsb_Equal_In (mid : option proto.MessageIdData) (l : list (option proto.MessageIdData)) :
  existsb (fun x => consumer.Equal x mid) l = true <-> In mid l.
Proof.
  rewrite existsb_exists. split.
  - intros (x & Hin & Heq). apply Equal_eq in Heq. subst. assumption.
  - intros Hin. exists mid. split; [assumption | apply Equal_eq; reflexivity].
Qed.

End Equality.

Section Handler.
Import impl_message consumer runs.

(** What a call of the handler does to the overflow list. *)
Lemma HandlerMessage_overflow (response : CommandMessage) (hp : list Z) (s : system) :
  let s' := snd (HandlerMessage response hp s) in
  overflow (self s') = overflow (self s)
  \/ (~ In (GetMessageId response) (overflow (self s))
      /\ overflow (self s') = overflow (self s) ++ [GetMessageId response]).
Proof.
  unfold HandlerMessage, bind, gets, ret, when, update. cbn [fst snd].
  destruct (ParseMessage (client (self s)) hp) as [e | [msgMeta payload]];
    [left; reflexivity|].
  assert (Hov :
    let s' := snd (
      (let (_, s') :=
         (if negb (existsb (fun mid => Equal mid (GetMessageId response)) (overflow (self s)))
          then fun s0 => (tt, with_self (fun pc => set_overflow (overflow pc ++ [GetMessageId response]) pc) s0)
          else fun s0 => (tt, s0)) s in
       (Returned (Some (ErrQueueFull (topic (self s)) (cap (MessageChannel (options (self s)))))), s'))) in
    overflow (self s') = overflow (self s)
    \/ (~ In (GetMessageId response) (overflow (self s))
        /\ overflow (self s') = overflow (self s) ++ [GetMessageId response])).
  { destruct (existsb _ (overflow (self s))) eqn:Hdup; cbn.
    - left. reflexivity.
    - right. split; [|reflexivity].
      rewrite <- existsb_Equal_In, Hdup. discriminate. }
  destruct (MessageChannel (options (self s))) as [ch |]; [|exact Hov].
  destruct (closed ch); [left; reflexivity|].
  destruct (Z.of_nat (length (buf ch)) <? capacity ch); [left; reflexivity|].
  exact Hov.
Qed.

(** C3.  The handler appends the inbound id to the overflow list only when
    the list does not hold it yet, so through any sequence of handler calls
    an overflow list without duplicates stays without duplicates: each
    broker id is in it at most once. *)
Theorem overflow_NoDup (calls : list (CommandMessage * list Z)) :
  forall s, NoDup (overflow (self s)) -> NoDup (overflow (self (handlerCalls calls s))).
Proof.
  induction calls as [| [response hp] calls IH]; intros s Hs; cbn [handlerCalls].
  - assumption.
  - apply IH.
    destruct (HandlerMessage_overflow response hp s) as [-> | [Hnew ->]].
    + assumption.
    + apply NoDup_app; [assumption | repeat constructor; intros [] | ].
      intros x Hx [<- | []]. contradiction.
Qed.

(** Three frames pushed into a queue of capacity 1, the last two with the
    same id: the overflow list holds that id once. *)
Lemma overflow_NoDup_witness :
  let s := sample.ready sample.broker Shared 1 in
  let calls := [(sample.push 1 1, [1]); (sample.push 1 2, [2]); (sample.push 1 2, [3])] in
  NoDup (overflow (self s))
  /\ NoDup (overflow (self (handlerCalls calls s)))
  /\ overflow (self (handlerCalls calls s)) = [Some (sample.mid 1 2)].
Proof.
  intros s calls.
  assert (H : NoDup (overflow (self s))) by constructor.
  split; [exact H|]. split; [exact (overflow_NoDup calls s H)|].
  vm_compute. reflexivity.
Defined.

End Handler.

(* ================================================================== *)
(** * Closing *)

(** Running the methods symbolically: the monad and the methods unfolded,
    then the matches on what the collaborators answer taken apart. *)
Ltac exec :=
  repeat progress
    (unfold consumer.bind, consumer.ret, consumer.gets, consumer.update,
       consumer.when, consumer.onTracker, consumer.NewRequestId,
       consumer.doLookup, consumer.doRequest,
       consumer.doRequestOnCnx, consumer.doRequestOnCnxNoWait,
       consumer.DeleteConsumeHandler, consumer.AddConsumeHandler,
       consumer.with_self, consumer.with_rpc, consumer.set_loopRunning,
       consumer.Close, consumer.postAndRun, consumer.post,
       consumer.runEventsLoop, consumer.internalClose,
       consumer.internalAck, consumer.internalAckCumulative,
       consumer.internalSeek, consumer.internalUnsubscribe,
       consumer.AckID, consumer.AckCumulativeID, consumer.Seek,
       consumer.Unsubscribe, consumer.ConnectionClosed,
       consumer.internalFlow in *;
     cbn in *).

Ltac answers :=
  repeat match goal with
         | |- context [consumer.RequestOnCnx ?c ?x ?i ?t ?m] =>
             destruct (consumer.RequestOnCnx c x i t m) eqn:?
         | |- context [consumer.RequestOnCnxNoWait ?c ?x ?i ?t ?m] =>
             destruct (consumer.RequestOnCnxNoWait c x i t m) eqn:?
         end.

Ltac open_system s :=
  destruct s as [pc st pos r lr]; destruct pc; cbn in *; subst.

Section Closing.
Import impl_message consumer runs.

Lemma Close_not_ready (s : system) :
  isReady (state (self s)) = false -> Close s = (Some None, s).
Proof.
  intros H. unfold Close, bind, gets. rewrite H. reflexivity.
Qed.

Lemma filter_not_same (h : Connection * Z) (l : list (Connection * Z)) :
  existsb (sameHandler h) (filter (fun h' => negb (sameHandler h h')) l) = false.
Proof.
  induction l as [| x l IH]; cbn [filter]; [reflexivity|].
  destruct (sameHandler h x) eqn:E; cbn [negb existsb]; [assumption|].
  rewrite E, IH. reflexivity.
Qed.

(** C6, as the code has it.  A close on a consumer that is not Ready
    returns success at once and changes nothing.  A close on a Ready, idle
    consumer sends exactly one CLOSE_CONSUMER, unregisters the handler, and
    ends in Closed with success when that request succeeds, in Closing with
    the error of the request when it fails; either way a second close
    returns success and changes nothing. *)
Theorem Close_idempotent (s : system) :
  (isReady (state (self s)) = false -> Close s = (Some None, s))
  /\ (state (self s) = consumerReady -> idle s ->
      let closeCmd := CommandCloseConsumer (consumerID (self s)) (nextRequestId (rpc s)) in
      let s' := snd (Close s) in
      wire (rpc s') = wire (rpc s) ++ [nextOnCnx s CLOSE_CONSUMER closeCmd]
      /\ handlerRegistered s' = false
      /\ match RequestOnCnx (client (self s)) (cnx (self s)) (nextRequestId (rpc s))
                 CLOSE_CONSUMER closeCmd with
         | inr _ => fst (Close s) = Some None /\ state (self s') = consumerClosed
         | inl e => fst (Close s) = Some (Some e) /\ state (self s') = consumerClosing
         end
      /\ Close s' = (Some None, s')).
Proof.
  split; [apply Close_not_ready|].
  intros Hready [Hloop Hchan]. unfold nextOnCnx, handlerRegistered.
  open_system s.
  destruct unAckTracker0 as [t |]; exec; answers;
    destruct cnx0 as [c |]; cbn; rewrite ?filter_not_same;
    repeat split; reflexivity.
Qed.

(** A Ready consumer built by the constructor, closed twice. *)
Lemma Close_idempotent_witness :
  state (self (sample.ready sample.broker Shared 1)) = consumerReady
  /\ idle (sample.ready sample.broker Shared 1)
  /\ state (self (snd (Close (sample.ready sample.broker Shared 1)))) = consumerClosed
  /\ fst (Close (snd (Close (sample.ready sample.broker Shared 1)))) = Some None.
Proof.
  assert (Hr : state (self (sample.ready sample.broker Shared 1)) = consumerReady)
    by reflexivity.
  assert (Hi : idle (sample.ready sample.broker Shared 1))
    by (split; reflexivity).
  refine (conj Hr (conj Hi _)).
  destruct (proj2 (Close_idempotent (sample.ready sample.broker Shared 1)) Hr Hi)
    as (_ & _ & Hres & Hagain).
  split.
  - exact (proj2 Hres).
  - exact (f_equal fst Hagain).
Defined.

(** The first close meets a connection on which the request fails: the
    consumer is left in Closing, not Closed. *)
Lemma Close_failed_request_stays_Closing :
  let s := sample.ready sample.brokenBroker Shared 1 in
  state (self s) = consumerReady
  /\ fst (Close s) = Some (Some (ErrCollaborator 1))
  /\ state (self (snd (Close s))) = consumerClosing
  /\ state (self (snd (Close s))) <> consumerClosed.
Proof.
  cbv zeta. split; [|split; [|split]]; [vm_compute; reflexivity .. | discriminate].
Qed.

End Closing.

(* ================================================================== *)
(** * Acknowledgements and redelivery through the events loop *)

Section Events.
Import impl_message consumer runs.

(** C10, as the code has it.  When the id of an ack does not decode, the
    handler goes on with the id as the decoder left it: it sends
    ACK{Individual} with that id without waiting for an answer, removes that
    id from the tracker, signals the wait group and reports an error (that of
    the request if the request fails too, else that of the decoder). *)
Theorem internalAck_not_atomic (ack : handleAck.t) (s : system)
  (m : proto.MessageIdData) (e : error) :
  proto.Unmarshal (Serialize (handleAck.msgID ack)) = (m, Some e) ->
  let ackCmd := CommandAck (consumerID (self s)) [m] CommandAck_Individual in
  let ack' := fst (internalAck ack s) in
  let s' := snd (internalAck ack s) in
  wire (rpc s') = wire (rpc s) ++ [nextOnCnxNoWait s ACK ackCmd]
  /\ unAckTracker (self s') = option_map (tracker.Remove m) (unAckTracker (self s))
  /\ handleAck.waitGroup ack' = pred (handleAck.waitGroup ack)
  /\ handleAck.err ack'
     = Some match RequestOnCnxNoWait (client (self s)) (cnx (self s))
                    (nextRequestId (rpc s)) ACK ackCmd with
            | Some e' => e'
            | None => e
            end.
Proof.
  intros Hdec. unfold nextOnCnxNoWait. open_system s.
  unfold internalAck. rewrite Hdec.
  destruct unAckTracker0 as [t |]; exec; answers; repeat split; reflexivity.
Qed.

(** An id that is no protobuf message at all: the decoder fails on its first
    byte and leaves the id empty. *)
Lemma internalAck_not_atomic_witness :
  let ack := {| handleAck.msgID := IdOther [255]; handleAck.waitGroup := 1;
                handleAck.err := None |} in
  let s := sample.ready sample.broker Shared 1 in
  proto.Unmarshal (Serialize (handleAck.msgID ack)) = (proto.empty, Some ErrUnexpectedEOF)
  /\ lastCall (snd (internalAck ack s))
     = Some (nextOnCnxNoWait s ACK (CommandAck 40 [proto.empty] CommandAck_Individual))
  /\ handleAck.waitGroup (fst (internalAck ack s)) = 0%nat
  /\ handleAck.err (fst (internalAck ack s)) = Some ErrUnexpectedEOF.
Proof.
  intros ack s.
  assert (Hdec : proto.Unmarshal (Serialize (handleAck.msgID ack))
                 = (proto.empty, Some ErrUnexpectedEOF)) by reflexivity.
  refine (conj Hdec _).
  destruct (internalAck_not_atomic ack s Hdec) as (Hwire & _ & Hwg & Herr).
  split; [|split].
  - unfold lastCall. rewrite Hwire, map_app. cbn [map]. rewrite last_last. reflexivity.
  - exact Hwg.
  - exact Herr.
Defined.

(** The id of the ack carries the partition alone: the decoder reads it,
    then fails on the missing required fields, and the ACK on the wire
    carries an id that is not empty. *)
Lemma internalAck_failed_decode_keeps_fields :
  let ack := {| handleAck.msgID := IdOther [24; 5]; handleAck.waitGroup := 1;
                handleAck.err := None |} in
  let s := sample.ready sample.broker Shared 1 in
  let m := {| proto.LedgerId := None; proto.EntryId := None;
              proto.Partition := Some 5; proto.BatchIndex := None;
              proto.XXX_unrecognized := [] |} in
  snd (proto.Unmarshal (Serialize (handleAck.msgID ack)))
  = Some (ErrRequiredNotSet "ledgerId")
  /\ lastCall (snd (internalAck ack s))
     = Some (nextOnCnxNoWait s ACK (CommandAck 40 [m] CommandAck_Individual))
  /\ m <> proto.empty.
Proof. cbv zeta. split; [|split]; [vm_compute; reflexivity .. | discriminate]. Qed.

(** C5 on a connection where the request of the ack fails: the caller has
    its result, success, as soon as the event is posted; the error is
    written into the event record when the events loop handles it, after
    the caller has read it. *)
Theorem AckCumulativeID_returns_before_handling :
  let s := sample.ready sample.brokenBroker Shared 1 in
  let id := IdImpl earliestMessageID in
  let posted := AckCumulativeID id s in
  fst posted = Some None
  /\ eventsChan (self (snd posted))
     = [EvAckCumulative {| handleAckCumulative.msgID := id;
                           handleAckCumulative.err := None |}]
  /\ wire (rpc (snd posted)) = wire (rpc s)
  /\ fst (runEventsLoop (snd posted))
     = [EvAckCumulative {| handleAckCumulative.msgID := id;
                           handleAckCumulative.err := Some (ErrCollaborator 1) |}].
Proof. cbv zeta. split; [|split; [|split]]; vm_compute; reflexivity. Qed.

(** C4 on a consumer whose overflow list is empty: the handler returns
    before it signals the wait group, so the caller stays in [wg.Wait()].
    Nothing is sent and the consumer is unchanged. *)
Theorem RedeliverUnackedMessages_empty_overflow_blocks :
  let s := sample.ready sample.broker Shared 1 in
  let hr := {| handleRedeliver.waitGroup := 1; handleRedeliver.err := None |} in
  overflow (self s) = []
  /\ internalRedeliver hr s = (hr, s)
  /\ RedeliverUnackedMessages s = (None, s).
Proof. cbv zeta. split; [|split]; vm_compute; reflexivity. Qed.

End Events.

(* ================================================================== *)
(** * Receiving *)

Section Receiving.
Import impl_message consumer runs.

(** C2 on a consumer of partition 3 and a pushed message of batch index 9:
    the id of the delivered message has 3 as its batch index and 9 as its
    partition index. *)
Theorem HandlerMessage_swaps_batch_and_partition :
  let s := sample.ready sample.broker Exclusive 2 in
  let response := sample.push 1 1 in
  let s' := snd (HandlerMessage response [7] s) in
  consumer.partitionIdx (self s) = 3
  /\ GetBatchIndex (GetMessageId response) = 9
  /\ map (fun cm => msgID (Message cm)) (queued s')
     = [IdImpl {| ledgerID := 1; entryID := 1; batchIdx := 3;
                  impl_message.partitionIdx := 9 |}].
Proof. cbv zeta. split; [|split]; vm_compute; reflexivity. Qed.

Lemma Receive_unfold (pick : selectPick) (ctx : Context) (s : system) :
  Receive pick ctx s =
  match select pick ctx (MessageChannel (options (self s))) with
  | SelBlocked => (None, s)
  | SelDone e => (Some (inl (ErrContext e)), s)
  | SelRecv (Some cm) c =>
      match proto.Unmarshal (Serialize (ID (Message cm))) with
      | (id, Some e) => (Some (inl e), with_self (set_channel c) s)
      | (id, None) =>
          (Some (inr (Message cm)),
           snd (onTracker (tracker.Add id) (with_self (set_channel c) s)))
      end
  | SelRecv None _ => (Some (inl ErrReceiveQueueClosed), s)
  end.
Proof.
  unfold Receive, bind, gets, ret, update. cbn [fst snd].
  destruct (select pick ctx (MessageChannel (options (self s)))) as [| e | [cm |] c];
    try reflexivity.
  destruct (proto.Unmarshal (Serialize (ID (Message cm)))) as [id [e |]]; reflexivity.
Qed.

(** C7, as the code has it.  With only the context done, [Receive] returns
    the error of the context unchanged; with only the queue ready, it fails
    with the queue-closed error when the queue is closed and empty, and
    else takes the oldest message, registers its id with the tracker and
    returns it.  With both ready the [select] may take either case.  With
    neither ready the call blocks. *)
Theorem Receive_outcomes (pick : selectPick) (ctx : Context) (s : system) :
  let ch := MessageChannel (options (self s)) in
  (forall e, Err ctx = Some e -> recv ch = None ->
     Receive pick ctx s = (Some (inl (ErrContext e)), s))
  /\ (forall c, Err ctx = None -> ch = Some c -> buf c = [] -> closed c = true ->
        Receive pick ctx s = (Some (inl ErrReceiveQueueClosed), s))
  /\ (forall c cm rest id,
        Err ctx = None -> ch = Some c -> buf c = cm :: rest ->
        msgID (Message cm) = IdImpl id ->
        let c' := {| buf := rest; capacity := capacity c; closed := closed c |} in
        Receive pick ctx s
        = (Some (inr (Message cm)),
           snd (onTracker (tracker.Add (wireForm id)) (with_self (set_channel c') s))))
  /\ (forall e, Err ctx = Some e -> recv ch <> None ->
        Receive PickDone ctx s = (Some (inl (ErrContext e)), s)
        /\ Receive PickRecv ctx s = Receive PickRecv {| Err := None |} s)
  /\ (Err ctx = None -> recv ch = None -> Receive pick ctx s = (None, s)).
Proof.
  cbv zeta. repeat apply conj.
  - intros e He Hrecv. rewrite Receive_unfold. unfold select. rewrite He, Hrecv.
    reflexivity.
  - intros c He Hch Hbuf Hclosed. rewrite Receive_unfold. unfold select, recv.
    rewrite He, Hch, Hbuf, Hclosed. reflexivity.
  - intros c cm rest id He Hch Hbuf Hid. rewrite Receive_unfold. unfold select, recv.
    rewrite He, Hch, Hbuf. unfold ID. rewrite Hid. cbn [Serialize].
    rewrite Unmarshal_Serialize. reflexivity.
  - intros e He Hrecv. rewrite !Receive_unfold. unfold select. cbn [Err]. rewrite He.
    destruct (recv (MessageChannel (options (self s)))) as [[cm c] |];
      [split; reflexivity | contradiction].
  - intros He Hrecv. rewrite Receive_unfold. unfold select. rewrite He, Hrecv.
    reflexivity.
Qed.

(** A consumer with one message in its delivery queue. *)
Lemma Receive_outcomes_witness :
  let s := sample.waiting in
  let ctx := {| Err := None |} in
  (Err ctx = None
   /\ MessageChannel (options (self s)) = Some sample.waitingQueue
   /\ buf sample.waitingQueue = [sample.delivered])
  /\ fst (Receive PickDone ctx s) = Some (inr (Message sample.delivered))
  /\ queued (snd (Receive PickDone ctx s)) = [].
Proof.
  intros s ctx.
  assert (Hch : MessageChannel (options (self s)) = Some sample.waitingQueue)
    by reflexivity.
  assert (Hbuf : buf sample.waitingQueue = [sample.delivered]) by reflexivity.
  pose proof (proj1 (proj2 (proj2 (Receive_outcomes PickDone ctx s)))
                sample.waitingQueue sample.delivered [] _ eq_refl Hch Hbuf eq_refl) as H.
  split; [repeat split|]; rewrite H; split; vm_compute; reflexivity.
Defined.

(** The context is cancelled and a message waits in the queue: the
    [select] may take the message, and [Receive] then returns it, not the
    error of the context. *)
Lemma Receive_done_context_may_deliver :
  let s := sample.waiting in
  let ctx := {| Err := Some Canceled |} in
  Err ctx = Some Canceled
  /\ option_map (fun r => match r with inl _ => false | inr _ => true end)
       (fst (Receive PickRecv ctx s)) = Some true
  /\ fst (Receive PickRecv ctx s) <> Some (inl (ErrContext Canceled)).
Proof.
  cbv zeta. split; [|split]; [vm_compute; reflexivity .. | vm_compute; discriminate].
Qed.

End Receiving.

(* ================================================================== *)
(** * Flow control of the asynchronous receive *)

Section Flow.
Import impl_message consumer runs.

Lemma HandlerMessage_rpc (response : CommandMessage) (hp : list Z) (s : system) :
  rpc (snd (HandlerMessage response hp s)) = rpc s.
Proof.
  unfold HandlerMessage, bind, gets, ret, when, update, with_self. cbn [fst snd].
  destruct (ParseMessage (client (self s)) hp) as [e | [msgMeta payload]];
    [reflexivity|].
  destruct (MessageChannel (options (self s))) as [ch |];
    [destruct (closed ch); [reflexivity|];
     destruct (Z.of_nat (length (buf ch)) <? capacity ch); [reflexivity|]|];
    destruct (existsb _ (overflow (self s))); reflexivity.
Qed.

Lemma internalFlow_wire (permits : Z) (s : system) :
  0 < permits ->
  exists c, wire (rpc (snd (internalFlow permits s))) = wire (rpc s) ++ [c]
            /\ flowPermits c = Some permits.
Proof.
  intros Hp. unfold internalFlow.
  destruct (Z.leb_spec permits 0) as [|_]; [lia|].
  eexists. split; reflexivity.
Qed.

Lemma onTracker_rpc (f : tracker.UnackedMessageTracker -> tracker.UnackedMessageTracker)
  (s : system) : rpc (snd (onTracker f s)) = rpc s.
Proof. reflexivity. Qed.

Lemma repeat_succ_Z (A : Type) (x : A) (n : Z) :
  0 <= n -> x :: repeat x (Z.to_nat n) = repeat x (Z.to_nat (1 + n)).
Proof.
  intros Hn. rewrite Z2Nat.inj_add by lia. reflexivity.
Qed.

Lemma ReceiveAsync_loop_select (pick : selectPick) (sched : list tick) (ctx : Context)
  (highwater : Z) (msgs0 : list ConsumerMessage) (rsf : Z) (s : system) :
  ReceiveAsync_loop (TickSelect pick :: sched) ctx highwater msgs0 rsf s =
  match select pick ctx (MessageChannel (options (self s))) with
  | SelBlocked => ReceiveAsync_loop sched ctx highwater msgs0 rsf s
  | SelDone e =>
      ({| returned := Some (ErrContext e); msgs := msgs0; receivedSinceFlow := rsf |}, s)
  | SelRecv None _ => ReceiveAsync_loop sched ctx highwater msgs0 rsf s
  | SelRecv (Some tmpMsg) c =>
      let s1 := with_self (set_channel c) s in
      match proto.Unmarshal (Serialize (ID (Message tmpMsg))) with
      | (id, Some e) =>
          ({| returned := Some e; msgs := msgs0 ++ [tmpMsg]; receivedSinceFlow := rsf |}, s1)
      | (id, None) =>
          let s2 := snd (onTracker (tracker.Add id) s1) in
          let n := uint32 (rsf + 1) in
          if n >=? highwater then
            match fst (internalFlow n s2) with
            | Some e =>
                ({| returned := Some e; msgs := msgs0 ++ [tmpMsg];
                    receivedSinceFlow := n |}, snd (internalFlow n s2))
            | None =>
                ReceiveAsync_loop sched ctx highwater (msgs0 ++ [tmpMsg]) 0
                  (snd (internalFlow n s2))
            end
          else ReceiveAsync_loop sched ctx highwater (msgs0 ++ [tmpMsg]) n s2
      end
  end.
Proof.
  cbn [ReceiveAsync_loop]. unfold bind at 1, gets at 1.
  destruct (select pick ctx (MessageChannel (options (self s)))) as [| e | [tmpMsg |] c];
    try reflexivity.
  unfold bind at 1, update at 1.
  destruct (proto.Unmarshal (Serialize (ID (Message tmpMsg)))) as [id [e |]];
    [reflexivity|].
  unfold bind at 1. rewrite (surjective_pairing (onTracker (tracker.Add id) _)).
  cbv zeta. destruct (uint32 (rsf + 1) >=? highwater); [|reflexivity].
  unfold bind at 1.
  rewrite (surjective_pairing (internalFlow (uint32 (rsf + 1)) _)). cbn [fst snd].
  destruct (fst (internalFlow (uint32 (rsf + 1)) _)); reflexivity.
Qed.

Lemma ReceiveAsync_loop_push (response : CommandMessage) (hp : list Z)
  (sched : list tick) (ctx : Context) (highwater : Z)
  (msgs0 : list ConsumerMessage) (rsf : Z) (s : system) :
  ReceiveAsync_loop (TickHandlerMessage response hp :: sched) ctx highwater msgs0 rsf s
  = ReceiveAsync_loop sched ctx highwater msgs0 rsf (snd (HandlerMessage response hp s)).
Proof.
  cbn [ReceiveAsync_loop]. unfold bind.
  destruct (HandlerMessage response hp s). reflexivity.
Qed.

(** The loop of [ReceiveAsync] from a counter below the high-water mark:
    with [k] more messages received, it has sent one FLOW of [highwater]
    permits for each time the counter reached the mark. *)
Lemma ReceiveAsync_loop_flows (highwater : Z) (sched : list tick) :
  1 <= highwater < 2 ^ 32 ->
  forall ctx msgs0 rsf s,
    0 <= rsf < highwater ->
    let r := fst (ReceiveAsync_loop sched ctx highwater msgs0 rsf s) in
    let s' := snd (ReceiveAsync_loop sched ctx highwater msgs0 rsf s) in
    exists new calls,
      msgs r = msgs0 ++ new
      /\ wire (rpc s') = wire (rpc s) ++ calls
      /\ let k := Z.of_nat (length (filter decodes new)) in
         map flowPermits calls = repeat (Some highwater) (Z.to_nat ((rsf + k) / highwater))
         /\ (receivedSinceFlow r = (rsf + k) mod highwater
             \/ (returned r <> None /\ (rsf + k) mod highwater = 0)).
Proof.
  intros Hhigh.
  assert (Hzero : forall rsf, 0 <= rsf < highwater ->
                    (rsf + 0) / highwater = 0 /\ (rsf + 0) mod highwater = rsf).
  { intros rsf Hr. rewrite Z.add_0_r. split; [apply Z.div_small | apply Z.mod_small]; lia. }
  induction sched as [| t sched IH]; intros ctx msgs0 rsf s Hrsf; cbn zeta.
  - exists [], []. cbn [ReceiveAsync_loop ret fst snd msgs returned receivedSinceFlow].
    rewrite !app_nil_r. cbn [filter length Z.of_nat].
    destruct (Hzero rsf Hrsf) as [-> ->]. repeat split. left. reflexivity.
  - destruct t as [pick | response hp | e].
    + (* a round of the loop *)
      rewrite ReceiveAsync_loop_select.
      destruct (select pick ctx (MessageChannel (options (self s)))) as [| e | [tmpMsg |] c].
      * apply IH. assumption.
      * exists [], []. cbn [fst snd msgs returned receivedSinceFlow].
        rewrite !app_nil_r. cbn [filter length Z.of_nat].
        destruct (Hzero rsf Hrsf) as [-> ->]. repeat split. left. reflexivity.
      * cbv zeta.
        set (s1 := with_self (set_channel c) s).
        pose proof (eq_refl : decodes tmpMsg = decodes tmpMsg) as Hdec.
        unfold decodes at 2 in Hdec.
        destruct (proto.Unmarshal (Serialize (ID (Message tmpMsg)))) as [id [e |]];
          cbn [snd] in Hdec.
        -- exists [tmpMsg], []. cbn [fst snd msgs returned receivedSinceFlow].
           rewrite app_nil_r. cbn [filter]. rewrite Hdec. cbn [length Z.of_nat].
           destruct (Hzero rsf Hrsf) as [-> ->].
           repeat split. left. reflexivity.
        -- set (s2 := snd (onTracker (tracker.Add id) s1)).
           assert (Hs2 : wire (rpc s2) = wire (rpc s)) by reflexivity.
           assert (Hu : uint32 (rsf + 1) = rsf + 1)
             by (unfold uint32; apply Z.mod_small; lia).
           rewrite Hu.
           destruct (Z.geb_spec (rsf + 1) highwater) as [Hfull | Hroom].
           ++ assert (Heq : rsf + 1 = highwater) by lia.
              destruct (@internalFlow_wire (rsf + 1) s2 ltac:(lia)) as (call & Hcall & Hperm).
              set (s3 := snd (internalFlow (rsf + 1) s2)) in *.
              destruct (fst (internalFlow (rsf + 1) s2)) as [e |].
              ** exists [tmpMsg], [call].
                 cbn [fst snd msgs returned receivedSinceFlow].
                 cbn [filter]. rewrite Hdec.
                 change (Z.of_nat (length [tmpMsg])) with 1.
                 rewrite Hcall, Hs2, Heq, Z.div_same, Z.mod_same by lia.
                 cbn [map]. rewrite Hperm, Heq.
                 repeat split. right. split; [discriminate | reflexivity].
              ** destruct (IH ctx (msgs0 ++ [tmpMsg]) 0 s3 ltac:(lia))
                   as (new & calls & Hmsgs & Hwire & Hflows & Hcount).
                 exists (tmpMsg :: new), (call :: calls).
                 rewrite Hmsgs, Hwire, Hcall, Hs2, <- !app_assoc.
                 cbn [app filter]. rewrite Hdec. cbn [length map].
                 rewrite Hperm, Hflows. cbv zeta in Hcount |- *.
                 rewrite Nat2Z.inj_succ.
                 set (k := Z.of_nat (length (filter decodes new))) in *.
                 assert (Hk : 0 <= k) by apply Nat2Z.is_nonneg.
                 replace (rsf + Z.succ k) with (k + 1 * highwater) by lia.
                 rewrite Z.div_add, Z.mod_add by lia.
                 rewrite Z.add_0_l in Hcount.
                 rewrite Heq, (Z.add_comm (k / highwater) 1).
                 repeat split.
                 --- apply repeat_succ_Z. apply Z.div_pos; lia.
                 --- exact Hcount.
           ++ destruct (IH ctx (msgs0 ++ [tmpMsg]) (rsf + 1) s2 ltac:(lia))
                as (new & calls & Hmsgs & Hwire & Hflows & Hcount).
              exists (tmpMsg :: new), calls.
              rewrite Hmsgs, Hwire, Hs2, <- !app_assoc.
              cbn [app filter]. rewrite Hdec. cbn [length].
              cbv zeta in Hflows, Hcount |- *. rewrite Nat2Z.inj_succ.
              replace (rsf + Z.succ (Z.of_nat (length (filter decodes new))))
                with (rsf + 1 + Z.of_nat (length (filter decodes new))) by lia.
              split; [reflexivity|]. split; [reflexivity|].
              split; [exact Hflows | exact Hcount].
      * apply IH. assumption.
    + (* a push into the handler *)
      rewrite ReceiveAsync_loop_push.
      destruct (IH ctx msgs0 rsf (snd (HandlerMessage response hp s)) Hrsf)
        as (new & calls & Hmsgs & Hwire & Hrest).
      exists new, calls. rewrite HandlerMessage_rpc in Hwire.
      split; [exact Hmsgs|]. split; [exact Hwire | exact Hrest].
    + (* the context is cancelled *)
      cbn [ReceiveAsync_loop]. apply IH. assumption.
Qed.

Lemma highwaterOf_max (capacity : Z) :
  0 <= capacity < 2 ^ 33 ->
  highwaterOf capacity = Z.max (capacity / 2) 1
  /\ 1 <= Z.max (capacity / 2) 1 < 2 ^ 32.
Proof.
  intros Hc. unfold highwaterOf, uint32.
  assert (0 <= capacity / 2 < 2 ^ 32).
  { split; [apply Z.div_pos; lia | apply Z.div_lt_upper_bound; lia]. }
  rewrite Z.mod_small by lia. lia.
Qed.

Lemma ReceiveAsync_unfold (sched : list tick) (ctx : Context) (s : system) :
  ReceiveAsync sched ctx s =
  let highwater := highwaterOf (cap (MessageChannel (options (self s)))) in
  match fst (internalFlow highwater s) with
  | Some e =>
      ({| returned := Some e; msgs := []; receivedSinceFlow := 0 |},
       snd (internalFlow highwater s))
  | None => ReceiveAsync_loop sched ctx highwater [] 0 (snd (internalFlow highwater s))
  end.
Proof.
  unfold ReceiveAsync, bind, gets. cbv zeta.
  destruct (internalFlow _ s) as [[e |] s1]; reflexivity.
Qed.

(** C8.  [ReceiveAsync] first sends FLOW(high) with
    [high = max (cap / 2) 1]; after [n] messages received it has sent, in
    all, [1 + n / high] FLOW requests of [high] permits each and nothing
    else, one more each time the counter reached [high], and the counter
    stands at [n mod high] (or the call has returned on the error of the
    FLOW just sent). *)
Theorem ReceiveAsync_flow (sched : list tick) (ctx : Context) (s : system) :
  let capacity := cap (MessageChannel (options (self s))) in
  0 <= capacity < 2 ^ 33 ->
  let high := Z.max (capacity / 2) 1 in
  let r := fst (ReceiveAsync sched ctx s) in
  let s' := snd (ReceiveAsync sched ctx s) in
  let n := Z.of_nat (length (filter decodes (msgs r))) in
  highwaterOf capacity = high
  /\ (exists calls,
        wire (rpc s') = wire (rpc s) ++ calls
        /\ map flowPermits calls = repeat (Some high) (Z.to_nat (1 + n / high)))
  /\ (receivedSinceFlow r = n mod high \/ (returned r <> None /\ n mod high = 0)).
Proof.
  cbv zeta. intros Hcap.
  destruct (highwaterOf_max Hcap) as [Hhw Hhigh].
  split; [exact Hhw|].
  rewrite ReceiveAsync_unfold. cbv zeta. rewrite Hhw.
  set (high := Z.max (cap (MessageChannel (options (self s))) / 2) 1) in *.
  destruct (@internalFlow_wire high s ltac:(lia)) as (call & Hcall & Hperm).
  set (s1 := snd (internalFlow high s)) in *.
  destruct (fst (internalFlow high s)) as [e |].
  - cbn [fst snd msgs returned receivedSinceFlow filter length].
    change (Z.of_nat 0) with 0.
    rewrite Z.div_0_l, Z.mod_0_l by lia. split.
    + exists [call]. rewrite Hcall. cbn [map]. rewrite Hperm. split; reflexivity.
    + left. reflexivity.
  - destruct (@ReceiveAsync_loop_flows high sched Hhigh ctx [] 0 s1 ltac:(lia))
      as (new & calls & Hmsgs & Hwire & Hflows & Hcount).
    cbv zeta in Hflows, Hcount. cbn [app] in Hmsgs. rewrite Hmsgs.
    rewrite Z.add_0_l in Hflows, Hcount. split.
    + exists (call :: calls). rewrite Hwire, Hcall, <- app_assoc. cbn [app map].
      rewrite Hperm, Hflows. split; [reflexivity|].
      apply repeat_succ_Z. apply Z.div_pos; [apply Nat2Z.is_nonneg | lia].
    + exact Hcount.
Qed.

(** A queue of capacity 2 (so a high-water mark of 1) with one message
    waiting: one FLOW at the start, one more after the message. *)
Lemma ReceiveAsync_flow_witness :
  let s := sample.waiting in
  let run := ReceiveAsync [TickSelect PickRecv] {| Err := None |} s in
  0 <= cap (MessageChannel (options (self s))) < 2 ^ 33
  /\ length (msgs (fst run)) = 1%nat
  /\ exists calls,
       wire (rpc (snd run)) = wire (rpc s) ++ calls
       /\ map flowPermits calls = [Some 1; Some 1].
Proof.
  intros s run.
  assert (Hcap : 0 <= cap (MessageChannel (options (self s))) < 2 ^ 33)
    by (split; vm_compute; [intros H; discriminate H | reflexivity]).
  destruct (ReceiveAsync_flow [TickSelect PickRecv] {| Err := None |} s Hcap)
    as (_ & (calls & Hwire & Hflows) & _).
  split; [exact Hcap|]. split; [vm_compute; reflexivity|].
  exists calls. split; [exact Hwire|]. exact Hflows.
Defined.

End Flow.

(* ================================================================== *)
(** * Reconnection *)

Section Reconnection.
Import impl_message consumer runs.

(** What stays of the consumer through [grabCnx]: everything but the
    connection and the consumer name. *)
Lemma grabCnx_identity (s : system) :
  let s' := snd (grabCnx s) in
  consumerID (self s') = consumerID (self s)
  /\ options (self s') = options (self s)
  /\ state (self s') = state (self s)
  /\ exists calls,
       wire (rpc s') = wire (rpc s) ++ calls
       /\ Forall (carries (consumerID (self s)) (SubscriptionName (options (self s)))) calls.
Proof.
  open_system s. unfold grabCnx, carries, subscribeIdentity. exec.
  destruct (Lookup client0 (lookups r) topic0) as [e | found]; cbn.
  { do 3 (split; [reflexivity|]). exists []. rewrite app_nil_r. split; constructor. }
  destruct (Request client0 _ _ _ _ _) as [e | res]; cbn.
  { do 3 (split; [reflexivity|]). eexists. split; [reflexivity|].
    constructor; [right; reflexivity | constructor]. }
  destruct (ConsumerStatsResponse (Response res)) as [stats |];
    destruct (GetType (Response res)); exec;
    try destruct (uint32 (ReceiverQueueSize options0) <=? 0); cbn;
    do 3 (split; [reflexivity|]);
    (eexists; split;
     [try rewrite <- app_assoc; reflexivity
     | repeat (apply Forall_cons; [first [right; reflexivity | left; reflexivity]|]);
       apply Forall_nil]).
Qed.

Lemma reconnectToBroker_unfold (fuel : nat) (s : system) :
  reconnectToBroker (S fuel) s =
  if negb (isReady (state (self s))) then (true, s)
  else match fst (grabCnx s) with
       | None => (true, snd (grabCnx s))
       | Some _ => reconnectToBroker fuel (snd (grabCnx s))
       end.
Proof.
  cbn [reconnectToBroker]. unfold bind, gets, ret.
  destruct (negb (isReady (state (self s)))); [reflexivity|].
  destruct (grabCnx s) as [[e |] s1]; reflexivity.
Qed.

Lemma reconnectToBroker_identity (fuel : nat) :
  forall s,
    let s' := snd (reconnectToBroker fuel s) in
    consumerID (self s') = consumerID (self s)
    /\ options (self s') = options (self s)
    /\ exists calls,
         wire (rpc s') = wire (rpc s) ++ calls
         /\ Forall (carries (consumerID (self s)) (SubscriptionName (options (self s)))) calls.
Proof.
  induction fuel as [| fuel IH]; intros s; cbv zeta.
  - do 2 (split; [reflexivity|]). exists []. rewrite app_nil_r. split; constructor.
  - rewrite reconnectToBroker_unfold.
    destruct (negb (isReady (state (self s)))).
    + do 2 (split; [reflexivity|]). exists []. rewrite app_nil_r. split; constructor.
    + destruct (grabCnx_identity s) as (Hid & Hopt & _ & calls & Hwire & Hcalls).
      cbv zeta in *. set (s1 := snd (grabCnx s)) in *.
      destruct (fst (grabCnx s)) as [e |].
      * destruct (IH s1) as (Hid' & Hopt' & calls' & Hwire' & Hcalls').
        cbv zeta in *. rewrite Hid', Hopt', Hid, Hopt, Hwire', Hwire.
        do 2 (split; [reflexivity|]).
        exists (calls ++ calls'). rewrite app_assoc. split; [reflexivity|].
        apply Forall_app. split; [assumption|].
        rewrite Hid, Hopt in Hcalls'. assumption.
      * do 2 (split; [assumption|]). exists calls. split; assumption.
Qed.

Lemma reconnects_identity (losses : list nat) :
  forall s,
    let s' := reconnects losses s in
    consumerID (self s') = consumerID (self s)
    /\ options (self s') = options (self s)
    /\ exists calls,
         wire (rpc s') = wire (rpc s) ++ calls
         /\ Forall (carries (consumerID (self s)) (SubscriptionName (options (self s)))) calls.
Proof.
  induction losses as [| fuel losses IH]; intros s; cbn [reconnects].
  - do 2 (split; [reflexivity|]). exists []. rewrite app_nil_r. split; constructor.
  - destruct (reconnectToBroker_identity fuel s) as (Hid & Hopt & calls & Hwire & Hcalls).
    destruct (IH (snd (reconnectToBroker fuel s))) as (Hid' & Hopt' & calls' & Hwire' & Hcalls').
    cbv zeta in *. rewrite Hid', Hopt', Hid, Hopt, Hwire', Hwire.
    do 2 (split; [reflexivity|]).
    exists (calls ++ calls'). rewrite app_assoc. split; [reflexivity|].
    apply Forall_app. split; [assumption|].
    rewrite Hid, Hopt in Hcalls'. assumption.
Qed.

(** C9.  Build a consumer and let it go through any number of connection
    losses, each followed by a run of [reconnectToBroker]: the consumer id
    and the subscription name stay those of the construction, and every
    SUBSCRIBE sent, the first one and those of the reconnections, carries
    them. *)
Theorem reconnect_preserves_identity (cl : collaborators) (r : rpcState)
  (tp : string) (opts : ConsumerOptions) (partitionId : Z) (losses : list nat) :
  let s0 := snd (newPartitionConsumer cl r tp opts partitionId) in
  let s := reconnects losses s0 in
  consumerID (self s0) = nextConsumerId r
  /\ consumerID (self s) = consumerID (self s0)
  /\ SubscriptionName (options (self s)) = SubscriptionName opts
  /\ exists calls,
       wire (rpc s) = wire r ++ calls
       /\ Forall (carries (nextConsumerId r) (SubscriptionName opts)) calls.
Proof.
  cbv zeta.
  destruct (reconnects_identity losses (snd (newPartitionConsumer cl r tp opts partitionId)))
    as (Hid & Hopt & calls & Hwire & Hcalls).
  cbv zeta in *. rewrite Hid, Hopt, Hwire. clear Hid Hopt Hwire.
  revert Hcalls. unfold newPartitionConsumer. cbn [NewConsumerId].
  match goal with
  | |- context [grabCnx ?s] =>
      destruct (grabCnx_identity s) as (Hid0 & Hopt0 & _ & calls0 & Hwire0 & Hcalls0);
      cbv zeta in *; destruct (grabCnx s) as [[e |] s1]
  end; cbn [snd fst self rpc consumerID options set_loopRunning with_self set_state] in *;
    rewrite Hid0, Hopt0, Hwire0;
    (assert (Hsub : forall o, SubscriptionName
                (match MessageChannel (setDefault o) with
                 | Some _ => setDefault o
                 | None => set_MessageChannel
                             (Some (make ConsumerMessage (ReceiverQueueSize (setDefault o))))
                             (setDefault o)
                 end) = SubscriptionName o)
       by (intros o; unfold setDefault;
           destruct (ReceiverQueueSize o <=? 0); cbn;
           destruct (AckTimeout _ =? 0); cbn;
           destruct (MessageChannel o); reflexivity));
    rewrite Hsub in *; intros Hcalls;
    (split; [reflexivity|]); (split; [reflexivity|]); (split; [reflexivity|]);
    exists (calls0 ++ calls); rewrite app_assoc; (split; [reflexivity|]);
    apply Forall_app; split; assumption.
Qed.

(** A first lookup that fails and a second that succeeds: the
    reconnection sends a SUBSCRIBE with the consumer id and the subscription
    name of the first one. *)
Example reconnect_sends_same_identity :
  let s0 := sample.ready sample.broker Shared 1 in
  let s := reconnects [3%nat] s0 in
  map subscribeIdentity (wire (rpc s))
  = [Some (40, "sub"%string); None; Some (40, "sub"%string); None].
Proof. vm_compute. reflexivity. Qed.

End Reconnection.

(* ================================================================== *)
(** * More on message ids and timestamps *)

Section CodecMore.
Import proto impl_message.

Lemma int64_uint64_any (x : Z) : int64 (uint64 x) = int64 x.
Proof. unfold int64, uint64. rewrite Zplus_mod_idemp_l. reflexivity. Qed.

(** The bytes of [Serialize] always decode, whatever the fields hold: the
    ledger and entry ids come back as they are (as int64), the batch and
    partition indices narrowed to int32. *)
Theorem Serialize_always_decodes (id : messageId) :
  deserializeMessageId (messageId_Serialize id)
  = inr (newMessageId (int64 (ledgerID id)) (int64 (entryID id))
           (int32 (batchIdx id)) (int32 (partitionIdx id))).
Proof.
  unfold deserializeMessageId. rewrite Unmarshal_Serialize.
  unfold runs.wireForm, GetLedgerId, GetEntryId, GetBatchIndex, GetPartition.
  cbn [LedgerId EntryId Partition BatchIndex].
  rewrite !int64_uint64_any. reflexivity.
Qed.

(** Two ids of the data model with the same bytes are the same id. *)
Theorem Serialize_injective (a b : messageId) :
  MessageID_model a -> MessageID_model b ->
  messageId_Serialize a = messageId_Serialize b -> a = b.
Proof.
  intros (Hal & Hae & Hab & Hap) (Hbl & Hbe & Hbb & Hbp) Heq.
  apply (f_equal Unmarshal) in Heq. rewrite !Unmarshal_Serialize in Heq.
  unfold runs.wireForm in Heq. injection Heq as Hl He Hp Hb.
  apply (f_equal int64) in Hl, He.
  rewrite !int64_uint64 in Hl, He by assumption.
  rewrite !int32_small in Hp, Hb by assumption.
  destruct a, b. cbn in *. subst. reflexivity.
Qed.

Lemma Serialize_injective_witness :
  MessageID_model earliestMessageID /\ MessageID_model latestMessageID
  /\ messageId_Serialize earliestMessageID <> messageId_Serialize latestMessageID.
Proof.
  assert (He : MessageID_model earliestMessageID)
    by (unfold MessageID_model, int64_range, int32_range, earliestMessageID,
          newMessageId;
        cbn [ledgerID entryID batchIdx partitionIdx]; lia).
  assert (Hl : MessageID_model latestMessageID)
    by (unfold MessageID_model, int64_range, int32_range, latestMessageID,
          newMessageId, maxLong;
        cbn [ledgerID entryID batchIdx partitionIdx]; lia).
  split; [exact He|]. split; [exact Hl|].
  intros Heq. pose proof (Serialize_injective He Hl Heq) as H. discriminate H.
Defined.

(** A timestamp in milliseconds that fits int64 when counted in
    nanoseconds survives the trip through [time.Time]: the seconds are
    [ts / 1000], the nanoseconds the rest. *)
Theorem timestamp_roundtrip (ts : Z) :
  0 <= ts -> ts * 1000000 < 2 ^ 63 ->
  timeFromUnixTimestampMillis ts = (ts / 1000, (ts mod 1000) * 1000000)
  /\ timeToUnixTimestampMillis (timeFromUnixTimestampMillis ts) = ts.
Proof.
  intros H0 Hmax.
  assert (Hsmall : forall x, - 2 ^ 63 <= x < 2 ^ 63 -> int64 x = x).
  { intros x Hx. unfold int64. rewrite Z.mod_small; lia. }
  assert (Hts : int64 ts = ts) by (apply Hsmall; lia).
  pose proof (Z.div_mod ts 1000 ltac:(lia)) as Hdm.
  pose proof (Z.mod_pos_bound ts 1000 ltac:(lia)) as Hm.
  assert (Hq : Z.quot (ts * 1000000) 1000000000 = ts / 1000).
  { rewrite Z.quot_div_nonneg by lia.
    replace 1000000000 with (1000 * 1000000) by reflexivity.
    rewrite (Z.mul_comm 1000 1000000), <- Z.div_div by lia.
    rewrite Z.div_mul by lia. reflexivity. }
  assert (Hd : 0 <= ts / 1000) by (apply Z.div_pos; lia).
  assert (Hfrom : timeFromUnixTimestampMillis ts = (ts / 1000, (ts mod 1000) * 1000000)).
  { unfold timeFromUnixTimestampMillis. cbv zeta.
    rewrite Hts, (Hsmall (ts * 1000000)) by lia. rewrite Hq.
    rewrite (Hsmall (ts / 1000 * 1000000000)) by lia.
    rewrite Hsmall by lia. f_equal. lia. }
  split; [exact Hfrom|].
  rewrite Hfrom. unfold timeToUnixTimestampMillis, UnixNano. cbn [fst snd].
  replace (ts / 1000 * 1000000000 + ts mod 1000 * 1000000) with (ts * 1000000) by lia.
  rewrite Hsmall by lia. rewrite Z.quot_div_nonneg, Z.div_mul by lia.
  unfold uint64. apply Z.mod_small. lia.
Qed.

Lemma timestamp_roundtrip_witness :
  (0 <= 1500 /\ 1500 * 1000000 < 2 ^ 63)
  /\ timeFromUnixTimestampMillis 1500 = (1, 500000000)
  /\ timeToUnixTimestampMillis (timeFromUnixTimestampMillis 1500) = 1500.
Proof.
  assert (H0 : 0 <= 1500) by lia.
  assert (H1 : 1500 * 1000000 < 2 ^ 63) by lia.
  split; [exact (conj H0 H1)|].
  exact (timestamp_roundtrip H0 H1).
Defined.

End CodecMore.

(* ================================================================== *)
(** * More on inbound messages *)

Section HandlerMore.
Import impl_message consumer runs.

Lemma HandlerMessage_room (response : CommandMessage) (hp : list Z) (s : system)
  (ch : chan ConsumerMessage) (cm : ConsumerMessage) :
  built s response hp = Some cm ->
  MessageChannel (options (self s)) = Some ch ->
  closed ch = false ->
  Z.of_nat (length (buf ch)) < capacity ch ->
  HandlerMessage response hp s
  = (Returned None,
     with_self (set_channel {| buf := buf ch ++ [cm]; capacity := capacity ch;
                               closed := closed ch |}) s).
Proof.
  unfold built, HandlerMessage, bind, gets, ret, update. cbn [fst snd].
  intros Hbuilt Hch Hopen Hroom.
  destruct (ParseMessage (client (self s)) hp) as [e | [msgMeta payload]];
    [discriminate Hbuilt|].
  injection Hbuilt as <-. rewrite Hch, Hopen.
  destruct (Z.ltb_spec (Z.of_nat (length (buf ch))) (capacity ch)); [reflexivity | lia].
Qed.

(** A frame that parses, pushed into a delivery queue with room: the
    handler returns success and the message goes to the back of the queue;
    nothing else changes.  The message carries the payload, key and topic,
    the ledger and entry ids of the broker, the partition of the consumer as
    its batch index and the batch index of the broker as its partition
    index. *)
Theorem HandlerMessage_delivers (response : CommandMessage) (hp : list Z) (s : system)
  (ch : chan ConsumerMessage) (msgMeta : MessageMetadata) (payload : list Z) :
  ParseMessage (client (self s)) hp = inr (msgMeta, payload) ->
  MessageChannel (options (self s)) = Some ch ->
  closed ch = false ->
  Z.of_nat (length (buf ch)) < capacity ch ->
  exists cm,
    HandlerMessage response hp s
    = (Returned None,
       with_self (set_channel {| buf := buf ch ++ [cm]; capacity := capacity ch;
                                 closed := false |}) s)
    /\ payLoad (Message cm) = payload
    /\ key (Message cm) = PartitionKey msgMeta
    /\ impl_message.topic (Message cm) = topic (self s)
    /\ msgID (Message cm)
       = IdImpl {| ledgerID := int64 (GetLedgerId (GetMessageId response));
                   entryID := int64 (GetEntryId (GetMessageId response));
                   batchIdx := consumer.partitionIdx (self s);
                   impl_message.partitionIdx := GetBatchIndex (GetMessageId response) |}.
Proof.
  intros Hparse Hch Hopen Hroom.
  destruct (built s response hp) as [cm |] eqn:Hbuilt.
  - exists cm. rewrite (HandlerMessage_room _ _ _ Hbuilt Hch Hopen Hroom), Hopen.
    unfold built in Hbuilt. rewrite Hparse in Hbuilt. injection Hbuilt as <-.
    repeat split.
  - unfold built in Hbuilt. rewrite Hparse in Hbuilt. discriminate Hbuilt.
Qed.

Lemma HandlerMessage_delivers_witness :
  let s := sample.ready sample.broker Shared 2 in
  ParseMessage (client (self s)) [7] = inr (sample.meta, [7])
  /\ MessageChannel (options (self s)) = Some (make ConsumerMessage 2)
  /\ fst (HandlerMessage (sample.push 1 1) [7] s) = Returned None
  /\ length (queued (snd (HandlerMessage (sample.push 1 1) [7] s))) = 1%nat.
Proof.
  intros s.
  assert (Hp : ParseMessage (client (self s)) [7] = inr (sample.meta, [7])) by reflexivity.
  assert (Hc : MessageChannel (options (self s)) = Some (make ConsumerMessage 2))
    by reflexivity.
  split; [exact Hp|]. split; [exact Hc|].
  destruct (@HandlerMessage_delivers (sample.push 1 1) [7] s _ _ _ Hp Hc eq_refl
              ltac:(cbn; lia)) as (cm & Hrun & Hpay & Hkey & Htopic & Hid).
  rewrite Hrun. split; reflexivity.
Defined.

(** A frame that does not parse is dropped: the handler returns the error
    of the parser, wrapped, and changes nothing, not even the overflow list
    of a consumer whose queue is full. *)
Lemma HandlerMessage_parse_error (response : CommandMessage) (hp : list Z)
  (s : system) (e : error) :
  ParseMessage (client (self s)) hp = inl e ->
  HandlerMessage response hp s = (Returned (Some (ErrParseMessage e)), s).
Proof.
  intros Hparse. unfold HandlerMessage, bind, gets, ret. cbn [fst snd].
  rewrite Hparse. reflexivity.
Qed.

(** A frame that parses, pushed into a full delivery queue: the handler
    returns the queue-full error with the topic and the capacity; the queue
    and the rpc side are unchanged; the overflow list gets the id of the
    broker at its end, unless it holds it already. *)
Theorem HandlerMessage_queue_full (response : CommandMessage) (hp : list Z) (s : system)
  (ch : chan ConsumerMessage) (msgMeta : MessageMetadata) (payload : list Z) :
  ParseMessage (client (self s)) hp = inr (msgMeta, payload) ->
  MessageChannel (options (self s)) = Some ch ->
  closed ch = false ->
  capacity ch <= Z.of_nat (length (buf ch)) ->
  let s' := snd (HandlerMessage response hp s) in
  fst (HandlerMessage response hp s)
  = Returned (Some (ErrQueueFull (topic (self s)) (capacity ch)))
  /\ queued s' = queued s
  /\ rpc s' = rpc s
  /\ (In (GetMessageId response) (overflow (self s)) ->
      overflow (self s') = overflow (self s))
  /\ (~ In (GetMessageId response) (overflow (self s)) ->
      overflow (self s') = overflow (self s) ++ [GetMessageId response]).
Proof.
  intros Hparse Hch Hopen Hfull. cbv zeta.
  unfold HandlerMessage, when, bind, gets, ret, update, queued. cbn [fst snd].
  rewrite Hparse, Hch, Hopen.
  destruct (Z.ltb_spec (Z.of_nat (length (buf ch))) (capacity ch)); [lia|].
  unfold cap.
  destruct (existsb (fun mid => Equal mid (GetMessageId response)) (overflow (self s)))
    eqn:Hdup; cbn [negb fst snd with_self self rpc set_overflow options overflow].
  - rewrite ?Hch. do 3 (split; [reflexivity|]). split.
    + reflexivity.
    + intros Hnot. apply existsb_Equal_In in Hdup. contradiction.
  - rewrite ?Hch. do 3 (split; [reflexivity|]). split.
    + intros Hin. apply existsb_Equal_In in Hin. congruence.
    + reflexivity.
Qed.

Lemma HandlerMessage_queue_full_witness :
  let s := snd (HandlerMessage (sample.push 1 1) [1] (sample.ready sample.broker Shared 1)) in
  let s' := snd (HandlerMessage (sample.push 1 2) [2] s) in
  length (queued s) = 1%nat
  /\ fst (HandlerMessage (sample.push 1 2) [2] s) = Returned (Some (ErrQueueFull "t" 1))
  /\ overflow (self s') = [Some (sample.mid 1 2)].
Proof.
  intros s s'.
  assert (Hch : exists ch, MessageChannel (options (self s)) = Some ch
                           /\ closed ch = false /\ capacity ch = 1
                           /\ length (buf ch) = 1%nat)
    by (eexists; repeat split; reflexivity).
  destruct Hch as (ch & Hch & Hopen & Hcap & Hlen).
  assert (Hp : ParseMessage (client (self s)) [2] = inr (sample.meta, [2])) by reflexivity.
  destruct (@HandlerMessage_queue_full (sample.push 1 2) [2] s ch _ _ Hp Hch Hopen
              ltac:(rewrite Hcap, Hlen; cbn; lia)) as (Hres & _ & _ & _ & Hnew).
  split; [reflexivity|]. split.
  - rewrite Hres, Hcap. reflexivity.
  - apply Hnew. intros [].
Defined.

End HandlerMore.

(* ================================================================== *)
(** * Delivery order *)

Section Order.
Import impl_message consumer runs.

Lemma built_set_channel (c : chan ConsumerMessage) (s : system)
  (response : CommandMessage) (hp : list Z) :
  built (with_self (set_channel c) s) response hp = built s response hp.
Proof. destruct s as [pc st pos r lr]. destruct pc. reflexivity. Qed.

Lemma set_channel_twice (c1 c2 : chan ConsumerMessage) (s : system) :
  with_self (set_channel c2) (with_self (set_channel c1) s) = with_self (set_channel c2) s.
Proof. destruct s as [pc st pos r lr]. destruct pc. reflexivity. Qed.

Lemma MessageChannel_set_channel (c : chan ConsumerMessage) (s : system) :
  MessageChannel (options (self (with_self (set_channel c) s))) = Some c.
Proof. reflexivity. Qed.

Lemma onTracker_options (f : tracker.UnackedMessageTracker -> tracker.UnackedMessageTracker)
  (s : system) : options (self (snd (onTracker f s))) = options (self s).
Proof.
  unfold onTracker, update, with_self. cbn [snd self].
  destruct (unAckTracker (self s)); reflexivity.
Qed.

Lemma built_IdImpl (s : system) (response : CommandMessage) (hp : list Z)
  (cm : ConsumerMessage) :
  built s response hp = Some cm -> exists id, msgID (Message cm) = IdImpl id.
Proof.
  unfold built. destruct (ParseMessage _ hp) as [e | [msgMeta payload]];
    [discriminate|].
  intros H. injection H as <-. eexists. reflexivity.
Qed.

(** Frames pushed while the queue has room line up at its back, in the
    order of the pushes. *)
Lemma handlerCalls_appends (calls : list (CommandMessage * list Z)) :
  forall s ch,
    MessageChannel (options (self s)) = Some ch ->
    closed ch = false ->
    Z.of_nat (length (buf ch)) + Z.of_nat (length calls) <= capacity ch ->
    Forall (fun c => built s (fst c) (snd c) <> None) calls ->
    exists cms,
      map Some cms = map (fun c => built s (fst c) (snd c)) calls
      /\ handlerCalls calls s
         = with_self (set_channel {| buf := buf ch ++ cms; capacity := capacity ch;
                                     closed := false |}) s.
Proof.
  induction calls as [| [response hp] calls IH]; intros s ch Hch Hopen Hroom Hparse.
  - exists []. split; [reflexivity|]. cbn [handlerCalls]. rewrite app_nil_r.
    destruct s as [pc st pos r lr]. destruct pc. cbn in Hch. subst.
    destruct ch. cbn in Hopen. subst. destruct options0. cbn in Hch. subst.
    reflexivity.
  - inversion Hparse as [| c cs Hfirst Hrest]; subst. cbn [fst snd] in Hfirst.
    destruct (built s response hp) as [cm |] eqn:Hbuilt; [|contradiction].
    cbn [handlerCalls length] in *.
    rewrite (HandlerMessage_room _ _ _ Hbuilt Hch Hopen) by lia. cbn [snd].
    set (ch1 := {| buf := buf ch ++ [cm]; capacity := capacity ch; closed := closed ch |}).
    destruct (IH (with_self (set_channel ch1) s) ch1) as (cms & Hcms & Hrun).
    + reflexivity.
    + exact Hopen.
    + subst ch1. cbn [buf capacity]. rewrite length_app. cbn [length]. lia.
    + apply Forall_forall. intros c Hc. rewrite built_set_channel.
      rewrite Forall_forall in Hrest. apply Hrest. exact Hc.
    + exists (cm :: cms). split.
      * cbn [map fst snd]. rewrite Hbuilt, Hcms. reflexivity.
      * rewrite Hrun, set_channel_twice. subst ch1. cbn [buf capacity].
        rewrite <- app_assoc. reflexivity.
Qed.

(** With a context that is not done, as many calls of [Receive] as there
    are messages in the queue return them oldest first and leave the queue
    empty. *)
Lemma receives_drains (l : list ConsumerMessage) :
  forall s ch,
    MessageChannel (options (self s)) = Some ch ->
    buf ch = l ->
    Forall (fun cm => exists id, msgID (Message cm) = IdImpl id) l ->
    map received (fst (receives (length l) s)) = map (fun cm => Some (Message cm)) l
    /\ queued (snd (receives (length l) s)) = [].
Proof.
  induction l as [| cm l IH]; intros s ch Hch Hbuf Hids.
  - cbn [length receives fst snd map]. split; [reflexivity|].
    unfold queued. rewrite Hch. exact Hbuf.
  - inversion Hids as [| x xs [id Hid] Hrest]; subst x xs.
    cbn [length receives]. rewrite Receive_unfold. unfold select, recv. cbn [Err].
    rewrite Hch, Hbuf. unfold ID. rewrite Hid. cbn [Serialize].
    rewrite Unmarshal_Serialize.
    set (c1 := {| buf := l; capacity := capacity ch; closed := closed ch |}).
    set (s1 := snd (onTracker (tracker.Add (wireForm id)) (with_self (set_channel c1) s))).
    destruct (IH s1 c1) as [Hmap Hq].
    + subst s1. rewrite onTracker_options. reflexivity.
    + reflexivity.
    + exact Hrest.
    + destruct (receives (length l) s1) as [rs s2]. cbn [fst snd map received] in *.
      rewrite Hmap. split; [reflexivity | exact Hq].
Qed.

(** Frames pushed into an empty, open delivery queue that has room for
    all of them are returned by as many calls of [Receive] in the order of
    the pushes, each as the handler built it. *)
Theorem delivery_order (calls : list (CommandMessage * list Z)) (s : system)
  (ch : chan ConsumerMessage) :
  MessageChannel (options (self s)) = Some ch ->
  closed ch = false ->
  buf ch = [] ->
  Z.of_nat (length calls) <= capacity ch ->
  Forall (fun c => built s (fst c) (snd c) <> None) calls ->
  map received (fst (receives (length calls) (handlerCalls calls s)))
  = map (fun c => option_map Message (built s (fst c) (snd c))) calls.
Proof.
  intros Hch Hopen Hbuf Hroom Hparse.
  destruct (@handlerCalls_appends calls s ch Hch Hopen) as (cms & Hcms & Hrun);
    [rewrite Hbuf; cbn [length]; lia | exact Hparse |].
  rewrite Hrun, Hbuf. cbn [app].
  assert (Hlen : length calls = length cms).
  { apply (f_equal (@length _)) in Hcms. rewrite !length_map in Hcms. congruence. }
  rewrite Hlen.
  set (c1 := {| buf := cms; capacity := capacity ch; closed := false |}).
  destruct (@receives_drains cms (with_self (set_channel c1) s) c1) as [Hmap _].
  - reflexivity.
  - reflexivity.
  - apply Forall_forall. intros cm Hcm.
    assert (Hin : In (Some cm) (map (fun c => built s (fst c) (snd c)) calls))
      by (rewrite <- Hcms; apply in_map; exact Hcm).
    apply in_map_iff in Hin. destruct Hin as (c & Hc & _).
    apply (built_IdImpl _ _ _ Hc).
  - rewrite Hmap. rewrite <- (map_map Some (option_map Message)).
    rewrite Hcms, map_map. reflexivity.
Qed.

Lemma delivery_order_witness :
  let s := sample.ready sample.broker Shared 2 in
  let calls := [(sample.push 1 1, [1]); (sample.push 1 2, [2])] in
  MessageChannel (options (self s)) = Some (make ConsumerMessage 2)
  /\ map (option_map payLoad)
       (map received (fst (receives 2 (handlerCalls calls s))))
     = [Some [1]; Some [2]].
Proof.
  intros s calls.
  assert (Hch : MessageChannel (options (self s)) = Some (make ConsumerMessage 2))
    by reflexivity.
  split; [exact Hch|].
  assert (Hparse : Forall (fun c => built s (fst c) (snd c) <> None) calls)
    by (repeat constructor; discriminate).
  pose proof (@delivery_order calls s _ Hch eq_refl eq_refl ltac:(cbn; lia) Hparse) as H.
  change (length calls) with 2%nat in H. rewrite H. reflexivity.
Defined.

End Order.

(* ================================================================== *)
(** * Subscribing and construction *)

Section Construction.
Import impl_message consumer runs.

(** The SUBSCRIBE and the FLOW that [grabCnx] sends from [s]. *)
Let subscribeCmd (s : system) : Command :=
  CommandSubscribe (nextRequestId (rpc s)) (topic (self s)) (subType s)
    (SubscriptionName (options (self s))) (consumerID (self s))
    (Name (options (self s))) (position s).

Let flowCmd (s : system) : Command :=
  CommandFlow (consumerID (self s)) (ReceiverQueueSize (options (self s))).

Lemma sameHandler_refl (h : Connection * Z) : sameHandler h h = true.
Proof. unfold sameHandler. rewrite !Z.eqb_refl. reflexivity. Qed.

Lemma grabCnx_success (s : system) (found : LookupResult) (res : RpcResult) :
  Lookup (client (self s)) (lookups (rpc s)) (topic (self s)) = inr found ->
  (forall id c, Request (client (self s)) (LogicalAddr found) (PhysicalAddr found)
                  id SUBSCRIBE c = inr res) ->
  GetType (Response res) = SUCCESS ->
  (forall c id m, RequestOnCnxNoWait (client (self s)) c id FLOW m = None) ->
  0 < ReceiverQueueSize (options (self s)) < 2 ^ 32 ->
  let s' := snd (grabCnx s) in
  fst (grabCnx s) = None
  /\ self s'
     = set_cnx (Some (Cnx res))
         match ConsumerStatsResponse (Response res) with
         | Some n => set_consumerName n (self s)
         | None => self s
         end
  /\ (exists calls, wire (rpc s') = wire (rpc s) ++ calls
                    /\ map cmd calls = [subscribeCmd s; flowCmd s]
                    /\ map cmdType calls = [SUBSCRIBE; FLOW])
  /\ handlerRegistered s' = true
  /\ loopRunning s' = loopRunning s
  /\ subType s' = subType s /\ position s' = position s
  /\ nextConsumerId (rpc s') = nextConsumerId (rpc s)
  /\ lookups (rpc s') = S (lookups (rpc s)).
Proof.
  intros Hlookup Hrequest Hsuccess Hflow Hsize.
  subst subscribeCmd flowCmd. cbv beta.
  assert (Hu : uint32 (ReceiverQueueSize (options (self s)))
               = ReceiverQueueSize (options (self s)))
    by (unfold uint32; apply Z.mod_small; lia).
  unfold handlerRegistered. open_system s. unfold grabCnx. exec.
  rewrite Hlookup. exec. rewrite Hrequest. exec.
  destruct (ConsumerStatsResponse (Response res)); exec;
    rewrite Hsuccess; exec; rewrite Hu;
    (destruct (Z.leb_spec (ReceiverQueueSize options0) 0); [lia|]);
    exec; rewrite Hflow; cbn; rewrite sameHandler_refl; cbn [orb];
    (do 2 (split; [reflexivity|])); (split; [|repeat split]);
    eexists; (split; [rewrite <- app_assoc; reflexivity | split; reflexivity]).
Qed.

(** A lookup that answers, a SUBSCRIBE answered with SUCCESS and a FLOW
    that goes out: the constructor returns a Ready, idle consumer with an
    empty overflow list, bound to the connection of the answer with its
    handler registered there, having sent SUBSCRIBE and then FLOW with the
    queue size (1000 when the options give none) as permits; a delivery
    queue it had to create has that capacity. *)
Theorem newPartitionConsumer_ready (cl : collaborators) (r : rpcState) (tp : string)
  (opts : ConsumerOptions) (partitionId : Z) (found : LookupResult) (res : RpcResult) :
  Lookup cl (lookups r) tp = inr found ->
  (forall id c, Request cl (LogicalAddr found) (PhysicalAddr found) id SUBSCRIBE c = inr res) ->
  GetType (Response res) = SUCCESS ->
  (forall c id m, RequestOnCnxNoWait cl c id FLOW m = None) ->
  ReceiverQueueSize (setDefault opts) < 2 ^ 32 ->
  let run := newPartitionConsumer cl r tp opts partitionId in
  let s := snd run in
  fst run = None
  /\ state (self s) = consumerReady
  /\ idle s
  /\ overflow (self s) = []
  /\ cnx (self s) = Some (Cnx res)
  /\ handlerRegistered s = true
  /\ (exists calls,
        wire (rpc s) = wire r ++ calls
        /\ map cmd calls
           = [CommandSubscribe (nextRequestId r) tp (subTypeOf (Type_ opts))
                (SubscriptionName opts) (nextConsumerId r) (Name opts)
                (positionOf (SubscriptionInitPos opts));
              CommandFlow (nextConsumerId r) (ReceiverQueueSize (setDefault opts))])
  /\ (MessageChannel opts = None ->
      MessageChannel (options (self s))
      = Some (make ConsumerMessage (ReceiverQueueSize (setDefault opts)))).
Proof.
  intros Hlookup Hrequest Hsuccess Hflow Hsize. cbv zeta.
  assert (Hpos : 0 < ReceiverQueueSize (setDefault opts)).
  { unfold setDefault. destruct (Z.leb_spec (ReceiverQueueSize opts) 0);
      destruct (AckTimeout _ =? 0); cbn; lia. }
  assert (Hsame : SubscriptionName (setDefault opts) = SubscriptionName opts
                  /\ Name (setDefault opts) = Name opts
                  /\ Type_ (setDefault opts) = Type_ opts
                  /\ SubscriptionInitPos (setDefault opts) = SubscriptionInitPos opts
                  /\ MessageChannel (setDefault opts) = MessageChannel opts).
  { unfold setDefault. destruct (ReceiverQueueSize opts <=? 0);
      destruct (AckTimeout _ =? 0); repeat split. }
  destruct Hsame as (Hsub & Hname & Hty & Hpos' & Hch).
  unfold newPartitionConsumer. cbn [NewConsumerId].
  set (o := setDefault opts) in *.
  destruct (MessageChannel o) as [c |] eqn:Hmc;
    match goal with
    | |- context [grabCnx ?s0] =>
        destruct (@grabCnx_success s0 found res) as
          (Hres & Hself & (calls & Hwire & Hcalls & _) & Hreg & Hloop & _);
        [exact Hlookup | exact Hrequest | exact Hsuccess | exact Hflow
        | cbn; lia |];
        destruct (grabCnx s0) as [err s1]
    end;
    cbn [fst snd] in *; subst err; cbn [fst snd];
    unfold idle, handlerRegistered in *;
    cbn [self with_self set_loopRunning loopRunning rpc set_state state overflow cnx
         eventsChan consumerID options] in *;
    rewrite Hself in *;
    destruct (ConsumerStatsResponse (Response res));
    unfold subscribeCmd, flowCmd in *; cbn in *;
    (do 2 (split; [reflexivity|])); (split; [split; reflexivity|]);
    (do 2 (split; [reflexivity|])); (split; [exact Hreg|]);
    (split;
     [ exists calls; split; [exact Hwire|]; rewrite Hcalls;
       rewrite ?Hsub, ?Hname, ?Hty, ?Hpos'; reflexivity
     | intros Hnone; rewrite Hnone in Hch; first [discriminate Hch | reflexivity] ]).
Qed.

(** Options that give no queue size: the constructor asks for 1000. *)
Lemma newPartitionConsumer_ready_witness :
  let run := newPartitionConsumer sample.broker sample.rpc0 "t" (sample.opts Shared 0) 3 in
  ReceiverQueueSize (setDefault (sample.opts Shared 0)) < 2 ^ 32
  /\ fst run = None
  /\ state (self (snd run)) = consumerReady
  /\ map flowPermits (wire (rpc (snd run))) = [None; Some 1000].
Proof.
  intros run.
  assert (Hsize : ReceiverQueueSize (setDefault (sample.opts Shared 0)) < 2 ^ 32)
    by (cbn; lia).
  destruct (@newPartitionConsumer_ready sample.broker sample.rpc0 "t"
              (sample.opts Shared 0) 3 _ _ eq_refl (fun _ _ => eq_refl) eq_refl
              (fun _ _ _ => eq_refl) Hsize)
    as (Hres & Hstate & _).
  split; [exact Hsize|]. split; [exact Hres|]. split; [exact Hstate|].
  vm_compute. reflexivity.
Defined.

End Construction.

(* ================================================================== *)
(** * More on construction *)

Section ConstructionMore.
Import impl_message consumer runs.

(** [grabCnx] touches the connection and the consumer name and nothing
    else of the consumer; the package variables and the events loop are
    left alone. *)
Lemma grabCnx_frame (s : system) :
  let s' := snd (grabCnx s) in
  (exists c n, self s' = set_cnx c (set_consumerName n (self s)))
  /\ loopRunning s' = loopRunning s
  /\ subType s' = subType s /\ position s' = position s
  /\ nextConsumerId (rpc s') = nextConsumerId (rpc s).
Proof.
  open_system s. unfold grabCnx. exec.
  destruct (Lookup client0 (lookups r) topic0) as [e | found]; cbn.
  { split; [exists cnx0, consumerName0; reflexivity | repeat split]. }
  destruct (Request client0 _ _ _ _ _) as [e | res]; cbn.
  { split; [exists cnx0, consumerName0; reflexivity | repeat split]. }
  destruct (ConsumerStatsResponse (Response res)) as [stats |];
    destruct (GetType (Response res)); exec;
    try destruct (uint32 (ReceiverQueueSize options0) <=? 0); cbn;
    (split; [eexists _, _; reflexivity | repeat split]).
Qed.

(** The tracker of a new consumer: one for the Shared and KeyShared
    subscription types, started with the ack timeout of the options, or
    with 30 seconds when that is zero; none for the other types. *)
Theorem newPartitionConsumer_tracker (cl : collaborators) (r : rpcState) (tp : string)
  (opts : ConsumerOptions) (partitionId : Z) :
  unAckTracker (self (snd (newPartitionConsumer cl r tp opts partitionId)))
  = match Type_ opts with
    | Shared | KeyShared =>
        Some (tracker.Start (if AckTimeout opts =? 0 then 30000000000 else AckTimeout opts)
                tracker.NewUnackedMessageTracker)
    | Exclusive | Failover => None
    end.
Proof.
  unfold newPartitionConsumer. cbn [NewConsumerId].
  match goal with
  | |- context [grabCnx ?s0] =>
      destruct (grabCnx_frame s0) as ((c & n & Hself) & _);
      destruct (grabCnx s0) as [[e |] s1]
  end; cbn [fst snd self with_self set_loopRunning set_state unAckTracker] in *;
    rewrite Hself; cbn [set_cnx set_consumerName unAckTracker];
    unfold setDefault;
    destruct (ReceiverQueueSize opts <=? 0);
    cbn [AckTimeout set_ReceiverQueueSize set_AckTimeout];
    destruct (Z.eqb_spec (AckTimeout opts) 0) as [Hz | Hnz];
    cbn [AckTimeout set_ReceiverQueueSize set_AckTimeout MessageChannel
         ReceiverQueueSize Type_];
    destruct (MessageChannel opts);
    cbn [AckTimeout set_ReceiverQueueSize set_AckTimeout MessageChannel
         ReceiverQueueSize Type_ set_MessageChannel];
    destruct (Type_ opts); try reflexivity;
    destruct (Z.eqb_spec (AckTimeout opts) 0); try reflexivity; contradiction.
Qed.

(** A lookup that fails: the constructor returns the error of the lookup
    and has sent nothing; no events loop is started. *)
Theorem newPartitionConsumer_lookup_error (cl : collaborators) (r : rpcState)
  (tp : string) (opts : ConsumerOptions) (partitionId : Z) (e : error) :
  Lookup cl (lookups r) tp = inl e ->
  let run := newPartitionConsumer cl r tp opts partitionId in
  fst run = Some e
  /\ wire (rpc (snd run)) = wire r
  /\ consumeHandlers (rpc (snd run)) = consumeHandlers r
  /\ state (self (snd run)) = consumerInit
  /\ loopRunning (snd run) = false.
Proof.
  intros Hlookup. cbv zeta. unfold newPartitionConsumer, grabCnx.
  cbn [NewConsumerId]. exec. rewrite Hlookup. cbn. repeat split.
Qed.

Lemma newPartitionConsumer_lookup_error_witness :
  let cl := {| Lookup := fun _ _ => inl (ErrCollaborator 2);
               Request := Request sample.broker;
               RequestOnCnx := RequestOnCnx sample.broker;
               RequestOnCnxNoWait := RequestOnCnxNoWait sample.broker;
               ParseMessage := ParseMessage sample.broker;
               ConvertToStringMap := ConvertToStringMap sample.broker |} in
  Lookup cl (lookups sample.rpc0) "t" = inl (ErrCollaborator 2)
  /\ fst (newPartitionConsumer cl sample.rpc0 "t" (sample.opts Shared 1) 3)
     = Some (ErrCollaborator 2).
Proof.
  intros cl.
  assert (H : Lookup cl (lookups sample.rpc0) "t" = inl (ErrCollaborator 2)) by reflexivity.
  split; [exact H|].
  exact (proj1 (@newPartitionConsumer_lookup_error cl sample.rpc0 "t"
                  (sample.opts Shared 1) 3 _ H)).
Defined.

(** A SUBSCRIBE that the broker answers with something else than SUCCESS:
    the constructor fails, with the code and message of an ERROR answer or
    with the unexpected type and the request id; it has sent the SUBSCRIBE
    alone, no FLOW, and has registered no handler. *)
Theorem newPartitionConsumer_refused (cl : collaborators) (r : rpcState)
  (tp : string) (opts : ConsumerOptions) (partitionId : Z)
  (found : LookupResult) (res : RpcResult) :
  Lookup cl (lookups r) tp = inr found ->
  (forall id c, Request cl (LogicalAddr found) (PhysicalAddr found) id SUBSCRIBE c = inr res) ->
  GetType (Response res) <> SUCCESS ->
  let run := newPartitionConsumer cl r tp opts partitionId in
  fst run
  = Some match GetType (Response res) with
         | ERROR => ErrBroker (fst (GetError (Response res))) (snd (GetError (Response res)))
         | t => ErrUnexpectedMsg t (nextRequestId r)
         end
  /\ map cmdType (skipn (length (wire r)) (wire (rpc (snd run)))) = [SUBSCRIBE]
  /\ consumeHandlers (rpc (snd run)) = consumeHandlers r
  /\ loopRunning (snd run) = false.
Proof.
  intros Hlookup Hrequest Hrefused. cbv zeta. unfold newPartitionConsumer, grabCnx.
  cbn [NewConsumerId]. exec. rewrite Hlookup. exec. rewrite Hrequest. exec.
  assert (Hskip : forall (l : list rpcCall) c, skipn (length l) (l ++ [c]) = [c]).
  { intros l c. rewrite skipn_app, skipn_all, Nat.sub_diag. reflexivity. }
  destruct (ConsumerStatsResponse (Response res));
    destruct (GetType (Response res)); try contradiction; cbn;
    rewrite Hskip; repeat split.
Qed.

Lemma newPartitionConsumer_refused_witness :
  let refusal := {| GetType := ERROR; GetError := (3, "denied"%string);
                    ConsumerStatsResponse := None |} in
  let cl := {| Lookup := Lookup sample.broker;
               Request := fun _ _ _ _ _ => inr {| Response := refusal; Cnx := 7 |};
               RequestOnCnx := RequestOnCnx sample.broker;
               RequestOnCnxNoWait := RequestOnCnxNoWait sample.broker;
               ParseMessage := ParseMessage sample.broker;
               ConvertToStringMap := ConvertToStringMap sample.broker |} in
  GetType refusal <> SUCCESS
  /\ fst (newPartitionConsumer cl sample.rpc0 "t" (sample.opts Shared 1) 3)
     = Some (ErrBroker 3 "denied").
Proof.
  intros refusal cl.
  assert (H : GetType refusal <> SUCCESS) by discriminate.
  split; [exact H|].
  exact (proj1 (@newPartitionConsumer_refused cl sample.rpc0 "t" (sample.opts Shared 1) 3
                  _ {| Response := refusal; Cnx := 7 |} eq_refl (fun _ _ => eq_refl) H)).
Defined.

End ConstructionMore.

(* ================================================================== *)
(** * More on the operations that go through the events loop *)

(** As [exec], for methods that decode a message id: the codec is left
    folded. *)
Ltac exec_ids :=
  repeat progress
    (unfold consumer.bind, consumer.ret, consumer.gets, consumer.update,
       consumer.when, consumer.onTracker, consumer.NewRequestId,
       consumer.doRequestOnCnx, consumer.doRequestOnCnxNoWait,
       consumer.DeleteConsumeHandler, consumer.AddConsumeHandler,
       consumer.with_self, consumer.with_rpc, consumer.set_loopRunning,
       consumer.Close, consumer.postAndRun, consumer.post,
       consumer.runEventsLoop, consumer.internalClose,
       consumer.internalAck, consumer.internalAckCumulative,
       consumer.internalSeek, consumer.internalUnsubscribe,
       consumer.AckID, consumer.AckCumulativeID, consumer.Seek,
       consumer.Unsubscribe, consumer.ConnectionClosed,
       consumer.RedeliverUnackedMessages in *;
     cbn -[proto.Unmarshal impl_message.messageId_Serialize
           consumer.internalRedeliver] in *;
     rewrite ?Unmarshal_Serialize in *).

Section EventsMore.
Import impl_message consumer runs.

(** An ack of an id of this package on an idle consumer: one
    ACK{Individual} with the wire form of the id goes out without waiting
    for an answer, the id leaves the tracker, and the caller gets what the
    send returned. *)
Theorem AckID_sends_and_untracks (id : messageId) (s : system) :
  idle s ->
  let ackCmd := CommandAck (consumerID (self s)) [wireForm id] CommandAck_Individual in
  let s' := snd (AckID (IdImpl id) s) in
  fst (AckID (IdImpl id) s)
  = Some (RequestOnCnxNoWait (client (self s)) (cnx (self s)) (nextRequestId (rpc s))
            ACK ackCmd)
  /\ wire (rpc s') = wire (rpc s) ++ [nextOnCnxNoWait s ACK ackCmd]
  /\ unAckTracker (self s') = option_map (tracker.Remove (wireForm id)) (unAckTracker (self s))
  /\ state (self s') = state (self s)
  /\ idle s'.
Proof.
  intros [Hloop Hchan]. unfold nextOnCnxNoWait, idle. open_system s.
  destruct unAckTracker0 as [t |]; exec_ids; answers; repeat split; reflexivity.
Qed.

Lemma AckID_sends_and_untracks_witness :
  let s := snd (Receive PickRecv {| Err := None |} sample.waiting) in
  let id := {| ledgerID := 1; entryID := 1; batchIdx := 3;
               impl_message.partitionIdx := 9 |} in
  idle s
  /\ option_map (tracker.tracked (wireForm id)) (unAckTracker (self s)) = Some true
  /\ fst (AckID (IdImpl id) s) = Some None
  /\ option_map (tracker.tracked (wireForm id))
       (unAckTracker (self (snd (AckID (IdImpl id) s)))) = Some false.
Proof.
  intros s id.
  assert (Hidle : idle s) by (split; reflexivity).
  destruct (AckID_sends_and_untracks id Hidle) as (Hres & _ & Htracker & _).
  split; [exact Hidle|]. split; [vm_compute; reflexivity|].
  split; [rewrite Hres; reflexivity|].
  rewrite Htracker. vm_compute. reflexivity.
Defined.



(** [Unsubscribe] on an idle consumer sends one UNSUBSCRIBE and returns
    its error or success; whether or not the request succeeded, the handler
    is unregistered and the tracker stopped.  The state of the consumer is
    left as it was. *)
Theorem Unsubscribe_always_unregisters (s : system) :
  idle s ->
  let unsubCmd := CommandUnsubscribe (nextRequestId (rpc s)) (consumerID (self s)) in
  let s' := snd (Unsubscribe s) in
  fst (Unsubscribe s)
  = Some match RequestOnCnx (client (self s)) (cnx (self s)) (nextRequestId (rpc s))
                 UNSUBSCRIBE unsubCmd with
         | inl e => Some e
         | inr _ => None
         end
  /\ wire (rpc s') = wire (rpc s) ++ [nextOnCnx s UNSUBSCRIBE unsubCmd]
  /\ handlerRegistered s' = false
  /\ unAckTracker (self s') = option_map tracker.Stop (unAckTracker (self s))
  /\ state (self s') = state (self s)
  /\ idle s'.
Proof.
  intros [Hloop Hchan]. unfold nextOnCnx, handlerRegistered, idle. open_system s.
  destruct unAckTracker0 as [t |]; exec_ids; answers;
    destruct cnx0 as [c |]; cbn; rewrite ?filter_not_same;
    repeat split; reflexivity.
Qed.

Lemma Unsubscribe_always_unregisters_witness :
  let s := sample.ready sample.brokenBroker Shared 1 in
  idle s
  /\ handlerRegistered s = true
  /\ fst (Unsubscribe s) = Some (Some (ErrCollaborator 1))
  /\ handlerRegistered (snd (Unsubscribe s)) = false
  /\ state (self (snd (Unsubscribe s))) = consumerReady.
Proof.
  intros s.
  assert (Hidle : idle s) by (split; reflexivity).
  destruct (Unsubscribe_always_unregisters Hidle) as (Hres & _ & Hreg & _ & Hstate & _).
  split; [exact Hidle|]. split; [reflexivity|].
  split; [exact Hres|]. split; [exact Hreg|]. rewrite Hstate. reflexivity.
Defined.

(** The events loop has no case for the connection-closed event: the event
    is taken from the channel and dropped, and the consumer is as it was
    before the connection layer posted it; no reconnection starts. *)
Theorem connectionClosed_is_dropped (s : system) :
  idle s ->
  fst (ConnectionClosed s) = true
  /\ runEventsLoop (snd (ConnectionClosed s)) = ([EvConnectionClosed], s).
Proof.
  intros [Hloop Hchan]. open_system s. split; reflexivity.
Qed.

Lemma connectionClosed_is_dropped_witness :
  let s := sample.ready sample.broker Shared 1 in
  idle s
  /\ wire (rpc (snd (runEventsLoop (snd (ConnectionClosed s))))) = wire (rpc s).
Proof.
  intros s.
  assert (Hidle : idle s) by (split; reflexivity).
  split; [exact Hidle|].
  rewrite (proj2 (connectionClosed_is_dropped Hidle)). reflexivity.
Defined.

End EventsMore.
(* ================================================================== *)
(** * Cumulative acks and the tracker *)

Section CumulativeAck.
Import impl_message consumer runs.

Lemma contains_without (id other : proto.MessageIdData) (l : list proto.MessageIdData) :
  tracker.contains other (tracker.without id l)
  = negb (proto.Equal id other) && tracker.contains other l.
Proof.
  unfold tracker.contains, tracker.without.
  induction l as [| x l IH]; cbn [filter existsb].
  - rewrite andb_false_r. reflexivity.
  - destruct (proto.Equal id x) eqn:Hix; cbn [negb existsb]; rewrite IH.
    + apply proto_Equal_eq in Hix. subst x.
      destruct (proto.Equal other id) eqn:Hoi.
      * apply proto_Equal_eq in Hoi. subst other.
        rewrite (proj2 (proto_Equal_eq id id) eq_refl). reflexivity.
      * reflexivity.
    + destruct (proto.Equal other x) eqn:Hox; [|reflexivity].
      apply proto_Equal_eq in Hox. subst x. rewrite Hix. reflexivity.
Qed.

Lemma tracked_Remove (id other : proto.MessageIdData) (t : tracker.UnackedMessageTracker) :
  tracker.tracked other (tracker.Remove id t)
  = negb (proto.Equal id other) && tracker.tracked other t.
Proof.
  unfold tracker.tracked, tracker.Remove.
  cbn [tracker.currentSet tracker.oldSet]. rewrite !contains_without.
  destruct (proto.Equal id other); reflexivity.
Qed.

(** A cumulative ack of an id of this package on an idle consumer, once
    the events loop has handled it: one ACK{Cumulative} with the wire form of
    the id has gone out on the current connection, and the tracker has lost
    that id alone; every other id it tracked, the earlier ones included, is
    still tracked. *)
Theorem AckCumulativeID_untracks_one_id (id : messageId) (s : system) :
  idle s ->
  let ackCmd := CommandAck (consumerID (self s)) [wireForm id] CommandAck_Cumulative in
  let s' := snd (runEventsLoop (snd (AckCumulativeID (IdImpl id) s))) in
  wire (rpc s') = wire (rpc s) ++ [nextOnCnx s ACK ackCmd]
  /\ idle s'
  /\ forall other,
       option_map (tracker.tracked other) (unAckTracker (self s'))
       = option_map (fun t => negb (proto.Equal (wireForm id) other)
                              && tracker.tracked other t)
           (unAckTracker (self s)).
Proof.
  intros [Hloop Hchan]. cbv zeta.
  assert (Hrun : wire (rpc (snd (runEventsLoop (snd (AckCumulativeID (IdImpl id) s)))))
                 = wire (rpc s)
                   ++ [nextOnCnx s ACK (CommandAck (consumerID (self s)) [wireForm id]
                                          CommandAck_Cumulative)]
                 /\ idle (snd (runEventsLoop (snd (AckCumulativeID (IdImpl id) s))))
                 /\ unAckTracker (self (snd (runEventsLoop
                                               (snd (AckCumulativeID (IdImpl id) s)))))
                    = option_map (tracker.Remove (wireForm id)) (unAckTracker (self s))).
  { unfold nextOnCnx, idle. open_system s.
    destruct unAckTracker0 as [t |]; exec_ids; answers;
      (split; [reflexivity|]; split; [split; reflexivity | reflexivity]). }
  destruct Hrun as (Hwire & Hidle & Htracker).
  split; [exact Hwire|]. split; [exact Hidle|].
  intros other. rewrite Htracker.
  destruct (unAckTracker (self s)) as [t |]; [|reflexivity].
  cbn [option_map]. rewrite tracked_Remove. reflexivity.
Qed.

Lemma AckCumulativeID_untracks_one_id_witness :
  let s := snd (Receive PickRecv {| Err := None |} sample.waiting) in
  let first := {| ledgerID := 1; entryID := 1; batchIdx := 3;
                  impl_message.partitionIdx := 9 |} in
  let later := {| ledgerID := 5; entryID := 5; batchIdx := 3;
                  impl_message.partitionIdx := 9 |} in
  let s' := snd (runEventsLoop (snd (AckCumulativeID (IdImpl later) s))) in
  idle s
  /\ option_map (tracker.tracked (wireForm first)) (unAckTracker (self s)) = Some true
  /\ option_map (tracker.tracked (wireForm first)) (unAckTracker (self s')) = Some true.
Proof.
  intros s first later s'.
  assert (Hidle : idle s) by (split; reflexivity).
  destruct (AckCumulativeID_untracks_one_id later Hidle) as (_ & _ & Htracker).
  split; [exact Hidle|]. split; [vm_compute; reflexivity|].
  unfold s'. rewrite Htracker. vm_compute. reflexivity.
Defined.

End CumulativeAck.

(* ================================================================== *)
(** * The end of the events loop *)

Section LoopExit.
Import impl_message consumer runs.

(** A close event ends the events loop whatever the state of the consumer:
    the loop handles it and returns, and the events queued behind it stay in
    the channel. *)
Theorem runEventsLoop_stops_at_close (cc : handlerClose.t) (rest : list event)
  (s : system) :
  loopRunning s = true ->
  eventsChan (self s) = EvClose cc :: rest ->
  let s' := snd (runEventsLoop s) in
  length (fst (runEventsLoop s)) = 1%nat
  /\ eventsChan (self s') = rest
  /\ loopRunning s' = false.
Proof.
  intros Hloop Hchan. open_system s.
  destruct state0, cnx0; exec; answers; repeat split; reflexivity.
Qed.

Lemma runEventsLoop_stops_at_close_witness :
  let cc := {| handlerClose.waitGroup := 1; handlerClose.err := None |} in
  let s := with_self (set_eventsChan [EvClose cc; EvConnectionClosed])
             (sample.ready sample.broker Shared 1) in
  loopRunning s = true
  /\ eventsChan (self (snd (runEventsLoop s))) = [EvConnectionClosed]
  /\ loopRunning (snd (runEventsLoop s)) = false.
Proof.
  intros cc s.
  assert (Hloop : loopRunning s = true) by reflexivity.
  destruct (@runEventsLoop_stops_at_close cc [EvConnectionClosed] s Hloop eq_refl)
    as (_ & Hrest & Hgone).
  split; [exact Hloop|]. split; [exact Hrest | exact Hgone].
Defined.

Lemma postAndRun_without_loop (ev : event) (s : system) :
  loopRunning s = false ->
  fst (postAndRun ev s) = None /\ rpc (snd (postAndRun ev s)) = rpc s.
Proof.
  intros Hloop. unfold postAndRun, post, runEventsLoop, bind, gets, ret.
  rewrite Hloop. cbn [orb].
  destruct (length (eventsChan (self s)) <? eventsChanCapacity)%nat;
    cbn [fst snd with_self self loopRunning rpc set_eventsChan eventsChan];
    rewrite ?Hloop; cbn [fst snd with_self self loopRunning rpc set_eventsChan eventsChan];
    [|split; reflexivity].
  destruct (eventsChan (self s) ++ [ev]) eqn:Happ; [|split; reflexivity].
  apply app_eq_nil in Happ. destruct Happ as [_ Habs]. discriminate Habs.
Qed.

Lemma Close_ends_loop (s : system) :
  state (self s) = consumerReady -> idle s -> loopRunning (snd (Close s)) = false.
Proof.
  intros Hready [Hloop Hchan]. open_system s.
  destruct unAckTracker0, cnx0; exec; answers; reflexivity.
Qed.

(** After a close of a Ready consumer, whether it succeeded or not, the
    events loop is gone: an ack, an unsubscribe or a redelivery request
    posted then is never handled, so the call never returns, and nothing is
    sent. *)
Theorem waiting_operations_block_after_Close (msgID : MessageID) (s : system) :
  state (self s) = consumerReady -> idle s ->
  let s1 := snd (Close s) in
  (fst (AckID msgID s1) = None /\ rpc (snd (AckID msgID s1)) = rpc s1)
  /\ (fst (Unsubscribe s1) = None /\ rpc (snd (Unsubscribe s1)) = rpc s1)
  /\ (fst (RedeliverUnackedMessages s1) = None
      /\ rpc (snd (RedeliverUnackedMessages s1)) = rpc s1).
Proof.
  intros Hready Hidle. cbv zeta.
  pose proof (Close_ends_loop Hready Hidle) as Hgone.
  set (s1 := snd (Close s)) in *.
  unfold AckID, Unsubscribe, RedeliverUnackedMessages, bind, ret.
  repeat split;
    match goal with
    | |- context [postAndRun ?ev s1] =>
        destruct (@postAndRun_without_loop ev s1 Hgone) as [Hnone Hrpc];
        destruct (postAndRun ev s1) as [o s2]; cbn [fst snd] in *; subst o;
        first [reflexivity | exact Hrpc]
    end.
Qed.

Lemma waiting_operations_block_after_Close_witness :
  let s := sample.ready sample.broker Shared 1 in
  state (self s) = consumerReady /\ idle s
  /\ fst (Close s) = Some None
  /\ fst (AckID (IdImpl earliestMessageID) (snd (Close s))) = None.
Proof.
  intros s.
  assert (Hready : state (self s) = consumerReady) by reflexivity.
  assert (Hidle : idle s) by (split; reflexivity).
  destruct (@waiting_operations_block_after_Close (IdImpl earliestMessageID) s Hready Hidle)
    as ((Hack & _) & _).
  split; [exact Hready|]. split; [exact Hidle|].
  split; [vm_compute; reflexivity | exact Hack].
Defined.

End LoopExit.

(* ================================================================== *)
(** * Redelivery of the overflow list *)

Section Redelivery.
Import impl_message consumer runs.

Lemma postAndRun_idle (ev : event) (s : system) :
  idle s ->
  postAndRun ev s =
  let (r, s1) := dispatch ev s in
  (match eventsChan (self s1) with
   | [] => Some (fst r)
   | _ :: _ => None
   end,
   if snd r then set_loopRunning false s1 else s1).
Proof.
  intros [Hloop Hchan]. open_system s.
  unfold postAndRun, post, runEventsLoop, bind, gets, ret, update, with_self.
  cbn [loopRunning orb fst snd self eventsChan app set_eventsChan runEventsLoop_on].
  unfold bind, update, ret, with_self.
  cbn [loopRunning orb fst snd self eventsChan app set_eventsChan].
  destruct (dispatch ev _) as [[ev' stop] s1]. cbn [fst snd].
  destruct stop; cbn [fst snd set_loopRunning self last map]; reflexivity.
Qed.

(** [pc.overflow[i:end]] for the bounds the loop computes: at most a
    thousand ids from position [i], all that are left when fewer are. *)
Lemma slice_chunk (A : Type) (l : list A) (i : Z) :
  0 <= i < Z.of_nat (length l) ->
  let size := Z.of_nat (length l) in
  let end_ := if i + maxRedeliverUnacknowledged >? size then size
              else i + maxRedeliverUnacknowledged in
  let chunk := slice l i end_ in
  (0 < length chunk <= 1000)%nat
  /\ chunk ++ skipn (Z.to_nat (i + maxRedeliverUnacknowledged)) l = skipn (Z.to_nat i) l.
Proof.
  intros Hi. cbv zeta. unfold slice, maxRedeliverUnacknowledged.
  assert (Hlen : length (skipn (Z.to_nat i) l) = (length l - Z.to_nat i)%nat)
    by apply length_skipn.
  destruct (Z.gtb_spec (i + 1000) (Z.of_nat (length l))) as [Hlast | Hmore].
  - rewrite firstn_all2 by (rewrite Hlen; lia).
    rewrite (skipn_all2 (n := Z.to_nat (i + 1000))) by lia.
    rewrite app_nil_r, Hlen. split; [lia | reflexivity].
  - replace (i + 1000 - i) with 1000 by lia.
    rewrite length_firstn, Hlen. split; [lia|].
    replace (Z.to_nat (i + 1000)) with (Z.to_nat 1000 + Z.to_nat i)%nat by lia.
    rewrite <- skipn_skipn. apply firstn_skipn.
Qed.

Lemma internalRedeliver_loop_step (fuel : nat) (i size requestID : Z)
  (redeliver : handleRedeliver.t) (s : system) :
  internalRedeliver_loop (S fuel) i size requestID redeliver s =
  if i <? Z.of_nat (length (overflow (self s))) then
    let end_ := if i + maxRedeliverUnacknowledged >? size then size
                else i + maxRedeliverUnacknowledged in
    let c := CommandRedeliverUnacknowledgedMessages (consumerID (self s))
               (slice (overflow (self s)) i end_) in
    internalRedeliver_loop fuel (i + maxRedeliverUnacknowledged) size requestID
      match RequestOnCnx (client (self s)) (cnx (self s)) requestID
              REDELIVER_UNACKNOWLEDGED_MESSAGES c with
      | inl e => {| handleRedeliver.waitGroup := handleRedeliver.waitGroup redeliver;
                    handleRedeliver.err := Some e |}
      | inr _ => redeliver
      end
      (with_rpc (send {| method := ViaRequestOnCnx (cnx (self s));
                         consumer.requestID := requestID;
                         cmdType := REDELIVER_UNACKNOWLEDGED_MESSAGES;
                         cmd := c |}) s)
  else (redeliver, s).
Proof.
  cbn [internalRedeliver_loop]. unfold bind, gets, doRequestOnCnx. cbn [fst snd].
  destruct (i <? Z.of_nat (length (overflow (self s)))); reflexivity.
Qed.

(** The loop of [internalRedeliver] from position [i]: one request per
    chunk, all with the one request id, covering the list from [i] on; the
    consumer is untouched and the wait group not signalled. *)
Lemma internalRedeliver_loop_chunks (requestID : Z) (fuel : nat) :
  forall i redeliver s,
    0 <= i ->
    Z.of_nat (length (overflow (self s))) - i < Z.of_nat fuel ->
    let out := internalRedeliver_loop fuel i (Z.of_nat (length (overflow (self s))))
                 requestID redeliver s in
    self (snd out) = self s
    /\ loopRunning (snd out) = loopRunning s
    /\ handleRedeliver.waitGroup (fst out) = handleRedeliver.waitGroup redeliver
    /\ exists calls cs,
         wire (rpc (snd out)) = wire (rpc s) ++ calls
         /\ map redeliverIds calls = map Some cs
         /\ concat cs = skipn (Z.to_nat i) (overflow (self s))
         /\ Forall (fun c => (0 < length c <= 1000)%nat) cs
         /\ Forall (fun c => consumer.requestID c = requestID) calls.
Proof.
  induction fuel as [| fuel IH]; intros i redeliver s Hi Hfuel; cbv zeta.
  - cbn [internalRedeliver_loop ret fst snd]. do 3 (split; [reflexivity|]).
    exists [], []. rewrite app_nil_r, skipn_all2 by lia. repeat split; constructor.
  - rewrite internalRedeliver_loop_step.
    destruct (Z.ltb_spec i (Z.of_nat (length (overflow (self s))))) as [Hin | Hout].
    + destruct (@slice_chunk _ (overflow (self s)) i ltac:(lia)) as [Hsize Hcat].
      cbv zeta in Hsize, Hcat |- *.
      set (end_ := if i + maxRedeliverUnacknowledged >? Z.of_nat (length (overflow (self s)))
                   then Z.of_nat (length (overflow (self s)))
                   else i + maxRedeliverUnacknowledged) in *.
      set (call := {| method := ViaRequestOnCnx (cnx (self s));
                      consumer.requestID := requestID;
                      cmdType := REDELIVER_UNACKNOWLEDGED_MESSAGES;
                      cmd := CommandRedeliverUnacknowledgedMessages (consumerID (self s))
                               (slice (overflow (self s)) i end_) |}).
      set (s1 := with_rpc (send call) s).
      set (rd := match RequestOnCnx _ _ _ _ _ with inl _ => _ | inr _ => _ end).
      assert (Hrd : handleRedeliver.waitGroup rd = handleRedeliver.waitGroup redeliver)
        by (subst rd; destruct (RequestOnCnx _ _ _ _ _); reflexivity).
      change (overflow (self s)) with (overflow (self s1)).
      destruct (IH (i + maxRedeliverUnacknowledged) rd s1)
        as (Hself & Hloop & Hwg & calls & cs & Hwire & Hids & Hcs & Hlens & Hreq);
        [unfold maxRedeliverUnacknowledged; lia
        | change (self s1) with (self s); unfold maxRedeliverUnacknowledged; lia |].
      split; [exact Hself|]. split; [exact Hloop|].
      split; [rewrite Hwg; exact Hrd|].
      exists (call :: calls), (slice (overflow (self s)) i end_ :: cs).
      split; [rewrite Hwire; subst s1; cbn [with_rpc rpc wire send];
              rewrite <- app_assoc; reflexivity|].
      split; [cbn [map]; rewrite Hids; reflexivity|].
      split; [cbn [concat]; rewrite Hcs; exact Hcat|].
      split; [constructor; assumption|].
      constructor; [reflexivity | assumption].
    + cbn [fst snd]. do 3 (split; [reflexivity|]).
      exists [], []. rewrite app_nil_r, skipn_all2 by lia. repeat split; constructor.
Qed.

Lemma internalRedeliver_nonempty (redeliver : handleRedeliver.t) (s : system) :
  overflow (self s) <> [] ->
  internalRedeliver redeliver s =
  let out := internalRedeliver_loop (S (length (overflow (self s)))) 0
               (Z.of_nat (length (overflow (self s)))) (nextRequestId (rpc s))
               redeliver (snd (NewRequestId s)) in
  ({| handleRedeliver.waitGroup := pred (handleRedeliver.waitGroup (fst out));
      handleRedeliver.err := handleRedeliver.err (fst out) |},
   snd (onTracker tracker.clear (with_self (set_overflow []) (snd out)))).
Proof.
  intros Hne. unfold internalRedeliver, bind, gets, update, ret. cbn [fst snd].
  destruct (Z.eqb_spec (Z.of_nat (length (overflow (self s)))) 0) as [Hz | _].
  { destruct (overflow (self s)); [contradiction | discriminate Hz]. }
  cbn [NewRequestId fst snd].
  destruct (internalRedeliver_loop _ 0 _ _ _ _) as [rd s1]. cbn [fst snd].
  destruct (onTracker tracker.clear _). reflexivity.
Qed.

(** A redelivery request on an idle consumer whose overflow list is not
    empty returns (with the error of the last chunk that failed, if one
    did); the list has gone out in order in chunks of at most a thousand
    ids, one request per chunk, all under the same request id; the overflow
    list is then empty and the tracker cleared. *)
Theorem RedeliverUnackedMessages_chunks (s : system) :
  idle s -> overflow (self s) <> [] ->
  let s' := snd (RedeliverUnackedMessages s) in
  fst (RedeliverUnackedMessages s) <> None
  /\ overflow (self s') = []
  /\ unAckTracker (self s') = option_map tracker.clear (unAckTracker (self s))
  /\ idle s'
  /\ exists calls cs,
       wire (rpc s') = wire (rpc s) ++ calls
       /\ map redeliverIds calls = map Some cs
       /\ concat cs = overflow (self s)
       /\ Forall (fun c => (0 < length c <= 1000)%nat) cs
       /\ Forall (fun c => consumer.requestID c = nextRequestId (rpc s)) calls.
Proof.
  intros Hidle Hne. cbv zeta.
  unfold RedeliverUnackedMessages, bind, ret.
  rewrite (postAndRun_idle _ Hidle). cbn [dispatch]. unfold bind, ret.
  rewrite (@internalRedeliver_nonempty _ s Hne). cbv zeta.
  set (s0 := snd (NewRequestId s)).
  assert (Hs0 : self s0 = self s) by reflexivity.
  assert (Hw0 : wire (rpc s0) = wire (rpc s)) by reflexivity.
  assert (Hl0 : loopRunning s0 = loopRunning s) by reflexivity.
  destruct (@internalRedeliver_loop_chunks (nextRequestId (rpc s))
              (S (length (overflow (self s0)))) 0
              {| handleRedeliver.waitGroup := 1; handleRedeliver.err := None |} s0
              ltac:(lia) ltac:(lia))
    as (Hself & Hloop & Hwg & calls & cs & Hwire & Hids & Hcs & Hlens & Hreq).
  cbv zeta in *. rewrite Hs0, ?Hw0, ?Hl0 in *.
  destruct (internalRedeliver_loop _ 0 _ _ _ s0) as [rd s1]. cbn [fst snd] in *.
  destruct Hidle as [Hrun Hchan].
  unfold onTracker, update, with_self, idle.
  cbn [fst snd self loopRunning rpc]. rewrite Hself.
  destruct (unAckTracker (self s)) as [t |] eqn:Ht;
    cbn [set_overflow unAckTracker set_unAckTracker eventsChan overflow option_map
         fst snd self loopRunning rpc];
    rewrite ?Ht;
    cbn [set_overflow unAckTracker set_unAckTracker eventsChan overflow option_map
         fst snd self loopRunning rpc handleRedeliver.waitGroup handleRedeliver.err];
    rewrite Hchan, Hwg; cbn [pred Wait fst snd self loopRunning rpc eventsChan
                              set_unAckTracker set_overflow unAckTracker overflow];
    rewrite ?Ht; cbn [option_map];
    change (Z.to_nat 0) with 0%nat in Hcs; cbn [skipn] in Hcs;
    (split; [discriminate|]); (do 2 (split; [reflexivity|]));
    (split; [split; [rewrite Hloop; exact Hrun | first [exact Hchan | reflexivity]]|]);
    exists calls, cs; (split; [exact Hwire|]); repeat split; assumption.
Qed.

(** Two ids in the overflow list of a consumer with a queue of capacity 1:
    one request carries both. *)
Lemma RedeliverUnackedMessages_chunks_witness :
  let s := handlerCalls [(sample.push 1 1, [1]); (sample.push 1 2, [2]); (sample.push 1 3, [3])]
             (sample.ready sample.broker Shared 1) in
  idle s /\ overflow (self s) <> []
  /\ fst (RedeliverUnackedMessages s) = Some None
  /\ overflow (self (snd (RedeliverUnackedMessages s))) = []
  /\ lastCall (snd (RedeliverUnackedMessages s))
     = Some (nextOnCnx s REDELIVER_UNACKNOWLEDGED_MESSAGES
               (CommandRedeliverUnacknowledgedMessages 40
                  [Some (sample.mid 1 2); Some (sample.mid 1 3)])).
Proof.
  intros s.
  assert (Hidle : idle s) by (split; reflexivity).
  assert (Hne : overflow (self s) <> []) by discriminate.
  destruct (RedeliverUnackedMessages_chunks Hidle Hne) as (_ & Hov & _).
  split; [exact Hidle|]. split; [exact Hne|].
  split; [vm_compute; reflexivity|]. split; [exact Hov|].
  vm_compute. reflexivity.
Defined.

End Redelivery.

(* ================================================================== *)
(** * Retrying the subscription *)

Section Retry.
Import impl_message consumer runs.

Lemma grabCnx_lookup_error (s : system) (e : error) :
  Lookup (client (self s)) (lookups (rpc s)) (topic (self s)) = inl e ->
  grabCnx s = (Some e, snd (doLookup (topic (self s)) s)).
Proof.
  intros H. unfold grabCnx, bind, gets. cbn [fst snd].
  unfold doLookup at 1. rewrite H. reflexivity.
Qed.

(** A Ready consumer that lost its connection, with a lookup service that
    fails [k] times and then answers, and a broker that accepts the
    SUBSCRIBE and the FLOW: given more than [k] attempts,
    [reconnectToBroker] returns after [k + 1] lookups, having sent one
    SUBSCRIBE and one FLOW, with the consumer bound to the new connection
    and its handler registered there. *)
Theorem reconnectToBroker_retries_until_subscribed (k : nat) :
  forall (fuel : nat) (s : system) (found : LookupResult) (res : RpcResult),
    state (self s) = consumerReady ->
    (forall n e, (lookups (rpc s) <= n < lookups (rpc s) + k)%nat ->
                 Lookup (client (self s)) n (topic (self s)) <> inr e) ->
    Lookup (client (self s)) (lookups (rpc s) + k) (topic (self s)) = inr found ->
    (forall id c, Request (client (self s)) (LogicalAddr found) (PhysicalAddr found)
                    id SUBSCRIBE c = inr res) ->
    GetType (Response res) = SUCCESS ->
    (forall c id m, RequestOnCnxNoWait (client (self s)) c id FLOW m = None) ->
    0 < ReceiverQueueSize (options (self s)) < 2 ^ 32 ->
    (k < fuel)%nat ->
    let s' := snd (reconnectToBroker fuel s) in
    fst (reconnectToBroker fuel s) = true
    /\ lookups (rpc s') = (lookups (rpc s) + k + 1)%nat
    /\ cnx (self s') = Some (Cnx res)
    /\ handlerRegistered s' = true
    /\ state (self s') = consumerReady
    /\ exists calls, wire (rpc s') = wire (rpc s) ++ calls
                     /\ map cmdType calls = [SUBSCRIBE; FLOW].
Proof.
  induction k as [| k IH];
    intros fuel s found res Hready Hfail Hfound Hrequest Hsuccess Hflow Hsize Hfuel;
    (destruct fuel as [| fuel]; [lia|]); cbv zeta;
    rewrite reconnectToBroker_unfold, Hready; cbn [isReady negb].
  - rewrite Nat.add_0_r in Hfound.
    destruct (@grabCnx_success s found res Hfound Hrequest Hsuccess Hflow Hsize)
      as (Hres & Hself & (calls & Hwire & _ & Htypes) & Hreg & _ & _ & _ & _ & Hlook).
    cbv zeta in *. rewrite Hres. cbn [fst snd]. rewrite Hself, Hlook.
    split; [reflexivity|]. split; [lia|].
    split; [destruct (ConsumerStatsResponse (Response res)); reflexivity|].
    split; [exact Hreg|].
    split; [destruct (ConsumerStatsResponse (Response res)); exact Hready|].
    exists calls. split; [exact Hwire | exact Htypes].
  - destruct (Lookup (client (self s)) (lookups (rpc s)) (topic (self s))) as [e | lr0] eqn:Hfirst;
      [|exfalso; apply (Hfail (lookups (rpc s)) lr0); [lia | exact Hfirst]].
    rewrite (grabCnx_lookup_error _ Hfirst). cbn [fst snd].
    set (s1 := snd (doLookup (topic (self s)) s)).
    assert (Hs1 : self s1 = self s) by reflexivity.
    assert (Hl1 : lookups (rpc s1) = S (lookups (rpc s))) by reflexivity.
    assert (Hw1 : wire (rpc s1) = wire (rpc s)) by reflexivity.
    destruct (IH fuel s1 found res) as (Hres & Hlook & Hcnx & Hreg & Hstate & calls & Hwire & Htypes);
      rewrite ?Hs1, ?Hl1; try assumption.
    + intros n e' Hn. apply Hfail. lia.
    + replace (S (lookups (rpc s)) + k)%nat with (lookups (rpc s) + S k)%nat by lia.
      exact Hfound.
    + lia.
    + cbv zeta in *. rewrite Hl1, Hw1 in *.
      split; [exact Hres|]. split; [lia|].
      split; [exact Hcnx|]. split; [exact Hreg|]. split; [exact Hstate|].
      exists calls. split; assumption.
Qed.

(** A lookup that fails once, then collaborators that accept. *)
Lemma reconnectToBroker_retries_until_subscribed_witness :
  let cl := {| Lookup := fun n _ => if (n =? 1)%nat then inl (ErrCollaborator 5)
                                    else Lookup sample.broker n "t"%string;
               Request := Request sample.broker;
               RequestOnCnx := RequestOnCnx sample.broker;
               RequestOnCnxNoWait := RequestOnCnxNoWait sample.broker;
               ParseMessage := ParseMessage sample.broker;
               ConvertToStringMap := ConvertToStringMap sample.broker |} in
  let s := sample.ready cl Shared 1 in
  state (self s) = consumerReady
  /\ lookups (rpc s) = 1%nat
  /\ fst (reconnectToBroker 2 s) = true
  /\ lookups (rpc (snd (reconnectToBroker 2 s))) = 3%nat.
Proof.
  intros cl s.
  assert (Hready : state (self s) = consumerReady) by reflexivity.
  assert (Hfail : forall n e, (lookups (rpc s) <= n < lookups (rpc s) + 1)%nat ->
                    Lookup (client (self s)) n (topic (self s)) <> inr e).
  { intros n e Hn. change (lookups (rpc s)) with 1%nat in Hn.
    assert (n = 1%nat) by lia. subst n. discriminate. }
  destruct (@reconnectToBroker_retries_until_subscribed 1 2 s _ _ Hready Hfail eq_refl
              (fun _ _ => eq_refl) eq_refl (fun _ _ _ => eq_refl)
              ltac:(cbn; lia) ltac:(lia))
    as (Hres & Hlook & _).
  split; [exact Hready|]. split; [reflexivity|]. split; [exact Hres | exact Hlook].
Defined.

End Retry.
(* ------------------------------------------------------------------ *)
(** * Flow accounting and queue conservation of [ReceiveAsync] *)

Section FlowAccounting.
Import impl_message consumer runs.

Lemma permitsGranted_repeat (calls : list rpcCall) (high : Z) (n : nat) :
  map flowPermits calls = repeat (Some high) n ->
  permitsGranted calls = high * Z.of_nat n.
Proof.
  revert n. unfold permitsGranted.
  induction calls as [| c calls IH]; intros [| n] H; cbn [map repeat] in H;
    try discriminate H.
  - cbn. lia.
  - injection H as Hc Hrest. cbn [map fold_right]. rewrite Hc, (IH n Hrest). lia.
Qed.

(** The requests of a run of [ReceiveAsync]: FLOWs of [high] permits,
    [1 + n / high] of them after [n] messages received. *)
Lemma ReceiveAsync_flows_sent (sched : list tick) (ctx : Context) (s : system) :
  0 <= cap (MessageChannel (options (self s))) < 2 ^ 33 ->
  let high := Z.max (cap (MessageChannel (options (self s))) / 2) 1 in
  let out := ReceiveAsync sched ctx s in
  let n := Z.of_nat (length (filter decodes (msgs (fst out)))) in
  exists calls,
    wire (rpc (snd out)) = wire (rpc s) ++ calls
    /\ map flowPermits calls = repeat (Some high) (Z.to_nat (1 + n / high)).
Proof.
  cbv zeta. intros Hcap.
  destruct (highwaterOf_max Hcap) as [Hhw Hhigh].
  rewrite ReceiveAsync_unfold. cbv zeta. rewrite Hhw.
  set (high := Z.max (cap (MessageChannel (options (self s))) / 2) 1) in *.
  destruct (@internalFlow_wire high s ltac:(lia)) as (call & Hcall & Hperm).
  set (s1 := snd (internalFlow high s)) in *.
  destruct (fst (internalFlow high s)) as [e |].
  - cbn [fst snd msgs filter length]. change (Z.of_nat 0) with 0.
    rewrite Z.div_0_l by lia.
    exists [call]. rewrite Hcall. cbn [map]. rewrite Hperm. split; reflexivity.
  - destruct (@ReceiveAsync_loop_flows high sched Hhigh ctx [] 0 s1 ltac:(lia))
      as (new & calls & Hmsgs & Hwire & Hflows & _).
    cbv zeta in Hflows. cbn [app] in Hmsgs. rewrite Hmsgs.
    rewrite Z.add_0_l in Hflows.
    exists (call :: calls). rewrite Hwire, Hcall, <- app_assoc. cbn [app map].
    rewrite Hperm, Hflows. split; [reflexivity|].
    apply repeat_succ_Z. apply Z.div_pos; [apply Nat2Z.is_nonneg | lia].
Qed.

(** Flow accounting.  At any point of a run of [ReceiveAsync] the permits
    it has asked for exceed the messages it has received, by at most the
    high-water mark: the broker is never left without permits, nor granted
    more than [high] beyond what was consumed. *)
Theorem ReceiveAsync_permits_bounds (sched : list tick) (ctx : Context) (s : system) :
  0 <= cap (MessageChannel (options (self s))) < 2 ^ 33 ->
  let high := Z.max (cap (MessageChannel (options (self s))) / 2) 1 in
  let out := ReceiveAsync sched ctx s in
  let n := Z.of_nat (length (filter decodes (msgs (fst out)))) in
  let granted := permitsGranted (skipn (length (wire (rpc s))) (wire (rpc (snd out)))) in
  n < granted <= n + high.
Proof.
  intros Hcap. cbv zeta.
  destruct (@ReceiveAsync_flows_sent sched ctx s Hcap) as (calls & Hwire & Hflows).
  cbv zeta in *. rewrite Hwire.
  rewrite skipn_app, skipn_all, Nat.sub_diag. cbn [skipn app].
  rewrite (@permitsGranted_repeat _ _ _ Hflows).
  set (high := Z.max (cap (MessageChannel (options (self s))) / 2) 1) in *.
  set (n := Z.of_nat (length (filter decodes (msgs (fst (ReceiveAsync sched ctx s)))))) in *.
  assert (Hhigh : 0 < high) by (subst high; lia).
  assert (Hn : 0 <= n) by (subst n; apply Nat2Z.is_nonneg).
  pose proof (Z.div_mod n high ltac:(lia)) as Hdm.
  pose proof (Z.mod_pos_bound n high Hhigh) as Hm.
  assert (0 <= n / high) by (apply Z.div_pos; lia).
  rewrite Z2Nat.id by lia. nia.
Qed.

Lemma ReceiveAsync_permits_bounds_witness :
  let s := sample.waiting in
  let out := ReceiveAsync [TickSelect PickRecv] {| Err := None |} s in
  let n := Z.of_nat (length (filter decodes (msgs (fst out)))) in
  (0 <= cap (MessageChannel (options (self s))) < 2 ^ 33)
  /\ n = 1
  /\ n < permitsGranted (skipn (length (wire (rpc s))) (wire (rpc (snd out))))
        <= n + Z.max (cap (MessageChannel (options (self s))) / 2) 1.
Proof.
  intros s out n.
  assert (Hcap : 0 <= cap (MessageChannel (options (self s))) < 2 ^ 33)
    by (split; vm_compute; [intros H; discriminate H | reflexivity]).
  split; [exact Hcap|]. split; [vm_compute; reflexivity|].
  exact (@ReceiveAsync_permits_bounds [TickSelect PickRecv] {| Err := None |} s Hcap).
Defined.




End FlowAccounting.
